(** * JTAG TAP controller state machine and engine (scripts/jtag/jtag.py)

    A shallow embedding of [JtagState], [JtagStateMachine], [JtagController]
    and [JtagEngine].  Python objects are kept in explicit stores: a
    [JtagState] object is referred to by the key under which
    [JtagStateMachine.states] holds it (its name), and [BitSequence] objects
    live in a heap indexed by locations, so that aliasing between the engine
    cache and the arguments handed to the controller is visible. *)

From stdpp Require Import gmap strings list fin_maps.
From Stdlib Require Import ZArith Lia.

Open Scope string_scope.
Open Scope list_scope.

(** ** Exceptions and the state-and-exception monad *)

Inductive exn : Type :=
  | KeyError (key : string)
  | IndexError
  | AttributeError (attr : string)
  | NotImplementedError (msg : string)
  | JtagError (msg : string)
  | RecursionError
  | TransportError (msg : string).

Inductive res (A : Type) : Type :=
  | Ok (a : A)
  | Raise (e : exn).
Arguments Ok {A} a.
Arguments Raise {A} e.

Definition res_bind {A B} (r : res A) (k : A -> res B) : res B :=
  match r with
  | Ok a => k a
  | Raise e => Raise e
  end.

(** A method body: it reads and writes the object [S] it runs on; an
    exception leaves the writes done so far in place. *)
Definition M (S A : Type) : Type := S -> res A * S.

Definition ret {S A} (a : A) : M S A := fun s => (Ok a, s).
Definition raise {S A} (e : exn) : M S A := fun s => (Raise e, s).
Definition bind {S A B} (m : M S A) (k : A -> M S B) : M S B :=
  fun s => match m s with
           | (Ok a, s') => k a s'
           | (Raise e, s') => (Raise e, s')
           end.
Definition get {S} : M S S := fun s => (Ok s, s).
Definition gets {S A} (f : S -> A) : M S A := fun s => (Ok (f s), s).
Definition modify {S} (f : S -> S) : M S unit := fun s => (Ok tt, f s).
Definition lift_res {S A} (r : res A) : M S A := fun s => (r, s).

Declare Scope py_scope.
Delimit Scope py_scope with py.
Notation "'let*' x ':=' m 'in' k" := (bind m (fun x => k))
  (at level 10, x pattern, m at level 100, k at level 200) : py_scope.
Notation "m ';;' k" := (bind m (fun _ => k))
  (at level 100, k at level 200, right associativity) : py_scope.
Notation "'try*' x ':=' r 'in' k" := (res_bind r (fun x => k))
  (at level 10, x pattern, r at level 100, k at level 200) : py_scope.

(** [for x in l: body x] *)
Fixpoint for_each {S A} (l : list A) (body : A -> M S unit) : M S unit :=
  match l with
  | [] => ret tt
  | x :: l' => bind (body x) (fun _ => for_each l' body)
  end.

(** A loop that threads an accumulator and may raise. *)
Fixpoint res_fold {A B} (f : B -> A -> res B) (l : list A) (acc : B) : res B :=
  match l with
  | [] => Ok acc
  | x :: l' => res_bind (f acc x) (res_fold f l')
  end.

(** ** BitSequence *)

(** Modelled from the spec: [BitSequence] (module [.bits], imported by
    jtag.py but not part of the sources at hand).  Per sections 4.3 and 6 of
    the specification it is an ordered, finite sequence of boolean values in
    transmission order; its length is the event count and its integer value
    is the binary number read in transmission order, with the first bit
    either most or least significant. *)
Definition BitSequence : Type := list bool.

Inductive bit_order : Type := MsbFirst | LsbFirst.

(** [BitSequence(events)] from a list of integer bits. *)
Definition bs_of_ints (events : list nat) : BitSequence :=
  map (fun e => negb (Nat.eqb e 0)) events.

(** [len(events)] *)
Definition bs_len (b : BitSequence) : nat := length b.

Definition bs_int_msb (b : BitSequence) : Z :=
  fold_left (fun v bit => (2 * v + Z.b2z bit)%Z) b 0%Z.

(** [int(events)] *)
Definition bs_int (o : bit_order) (b : BitSequence) : Z :=
  match o with
  | MsbFirst => bs_int_msb b
  | LsbFirst => bs_int_msb (rev b)
  end.

(** ** JtagState *)

Module JtagState.

Record t : Type := mk {
  name : string;
  modes : list string;
  (** references to the two exit states *)
  exits : list string;
}.

(** [__init__]: [self] is [name]; the exits are a dummy value before the
    initial configuration. *)
Definition __init__ (name : string) (modes : list string) : t :=
  {| name := name; modes := modes; exits := [name; name] |}.

Definition setx (fstate tstate : string) (self : t) : t :=
  {| name := name self; modes := modes self; exits := [fstate; tstate] |}.

(** [self.exits[int(bool(event))]] *)
Definition getx (self : t) (event : bool) : res string :=
  match exits self !! (if event then 1 else 0)%nat with
  | Some x => Ok x
  | None => Raise IndexError
  end.

Definition is_of (self : t) (mode : string) : bool :=
  bool_decide (mode ∈ modes self).

End JtagState.

(** ** JtagStateMachine *)

Module JtagStateMachine.

Record t : Type := mk {
  states : gmap string JtagState.t;
  _current : string;
  _tr_cache : gmap (string * nat * Z) string;
}.

Definition set_states (f : gmap string JtagState.t -> gmap string JtagState.t)
    (self : t) : t :=
  {| states := f (states self); _current := _current self;
     _tr_cache := _tr_cache self |}.
Definition set_current (c : string) (self : t) : t :=
  {| states := states self; _current := c; _tr_cache := _tr_cache self |}.
Definition set_tr_cache
    (f : gmap (string * nat * Z) string -> gmap (string * nat * Z) string)
    (self : t) : t :=
  {| states := states self; _current := _current self;
     _tr_cache := f (_tr_cache self) |}.

(** Reading the object behind a state reference. *)
Definition deref (st : gmap string JtagState.t) (r : string)
    : res JtagState.t :=
  match st !! r with
  | Some o => Ok o
  | None => Raise (KeyError r)
  end.

(** [self[name]]: the reference to the state called [name]. *)
Definition __getitem__ (name : string) : M t string :=
  fun self => (res_bind (deref (states self) name) (fun _ => Ok name), self).

Definition state_table : list (string * list string) :=
  [("test_logic_reset", ["reset"; " idle"]);
   ("run_test_idle", ["idle"]);
   ("select_dr_scan", ["dr"]);
   ("capture_dr", ["dr"; "shift"; "capture"]);
   ("shift_dr", ["dr"; "shift"]);
   ("exit_1_dr", ["dr"; "update"; "pause"]);
   ("pause_dr", ["dr"; "pause"]);
   ("exit_2_dr", ["dr"; "shift"; "udpate"]);
   ("update_dr", ["dr"; "idle"]);
   ("select_ir_scan", ["ir"]);
   ("capture_ir", ["ir"; "shift"; "capture"]);
   ("shift_ir", ["ir"; "shift"]);
   ("exit_1_ir", ["ir"; "udpate"; "pause"]);
   ("pause_ir", ["ir"; "pause"]);
   ("exit_2_ir", ["ir"; "shift"; "update"]);
   ("update_ir", ["ir"; "idle"])].

(** [self[a].setx(self[f], self[t])] *)
Definition wire (a f t' : string) : M t unit :=
  (let* ra := __getitem__ a in
   let* rf := __getitem__ f in
   let* rt := __getitem__ t' in
   modify (set_states (alter (JtagState.setx rf rt) ra)))%py.

(** The object before [__init__] has run. *)
Definition blank : t :=
  {| states := ∅; _current := ""; _tr_cache := ∅ |}.

Definition __init__ : M t unit :=
  (modify (set_states (fun _ => ∅)) ;;
   for_each state_table (fun '(state, modes) =>
     modify (set_states <[state := JtagState.__init__ state modes]>)) ;;
   wire "test_logic_reset" "run_test_idle" "test_logic_reset" ;;
   wire "run_test_idle" "run_test_idle" "select_dr_scan" ;;
   wire "select_dr_scan" "capture_dr" "select_ir_scan" ;;
   wire "capture_dr" "shift_dr" "exit_1_dr" ;;
   wire "shift_dr" "shift_dr" "exit_1_dr" ;;
   wire "exit_1_dr" "pause_dr" "update_dr" ;;
   wire "pause_dr" "pause_dr" "exit_2_dr" ;;
   wire "exit_2_dr" "shift_dr" "update_dr" ;;
   wire "update_dr" "run_test_idle" "select_dr_scan" ;;
   wire "select_ir_scan" "capture_ir" "test_logic_reset" ;;
   wire "capture_ir" "shift_ir" "exit_1_ir" ;;
   wire "shift_ir" "shift_ir" "exit_1_ir" ;;
   wire "exit_1_ir" "pause_ir" "update_ir" ;;
   wire "pause_ir" "pause_ir" "exit_2_ir" ;;
   wire "exit_2_ir" "shift_ir" "update_ir" ;;
   wire "update_ir" "run_test_idle" "select_dr_scan" ;;
   let* r := __getitem__ "test_logic_reset" in
   modify (set_current r) ;;
   modify (set_tr_cache (fun _ => ∅)))%py.

(** The [state] property. *)
Definition state : M t string := gets _current.

Definition state_of (mode : string) : M t bool :=
  (let* cur := state in
   let* st := gets states in
   let* o := lift_res (deref st cur) in
   ret (JtagState.is_of o mode))%py.

Definition reset : M t unit :=
  (let* r := __getitem__ "test_logic_reset" in
   modify (set_current r))%py.

(** [min(((len(path), path) for path in paths), key=lambda x: x[0])[1]]:
    the first of the shortest candidates. *)
Fixpoint min_by_len (best : list string) (rest : list (list string))
    : list string :=
  match rest with
  | [] => best
  | p :: rest' =>
      if (length p <? length best)%nat then min_by_len p rest'
      else min_by_len best rest'
  end.

Definition shortest (paths : list (list string)) : list string :=
  match paths with
  | [] => []
  | p :: rest => min_by_len p rest
  end.

(** The local function [next_path] of [find_path].  [depth] bounds the
    recursion depth; running out of it is Python's [RecursionError]. *)
Fixpoint next_path (depth : nat) (st : gmap string JtagState.t)
    (state target : string) (path : list string) : res (list string) :=
  match depth with
  | O => Raise RecursionError
  | S depth' =>
      if decide (state = target) then Ok (path ++ [state])
      else
        (try* o := deref st state in
         try* paths :=
           res_fold (fun paths xstate =>
             if decide (xstate = state) then Ok paths
             else if decide (xstate ∈ path) then Ok paths
             else
               try* npath :=
                 next_path depth' st xstate target (path ++ [state]) in
               match npath with
               | [] => Ok paths
               | _ :: _ => Ok (paths ++ [npath])
               end)
             (JtagState.exits o) [] in
         Ok (shortest paths))%py
  end.

(** CPython's default recursion limit. *)
Definition recursion_limit : nat := 1000.

(** An argument of type [Union[JtagState, str]]. *)
Inductive state_arg : Type :=
  | ByName (name : string)
  | ByState (ref : string).

Definition resolve (a : state_arg) : M t string :=
  match a with
  | ByName n => __getitem__ n
  | ByState r => ret r
  end.

Definition find_path (target : state_arg) (source : option state_arg)
    : M t (list string) :=
  (let* source :=
     match source with
     | None => state
     | Some a => resolve a
     end in
   let* target := resolve target in
   let* st := gets states in
   lift_res (next_path recursion_limit st source target []))%py.

(** [enumerate(l)] *)
Definition enumerate {A} (l : list A) : list (nat * A) :=
  zip (seq 0 (length l)) l.

(** [get_events] is a class method: it only follows the references held
    by the states of [path], read here from the state store [st]. *)
Definition get_events_in (st : gmap string JtagState.t) (path : list string)
    : res BitSequence :=
  (try* events :=
     res_fold (fun events '(sstate, dstate) =>
       try* o := deref st sstate in
       Ok (fold_left (fun events '(epos, xstate) =>
             if decide (xstate = dstate) then events ++ [epos]
             else events)
           (enumerate (JtagState.exits o)) events))
       (zip (removelast path) (tail path)) [] in
   if decide (Z.of_nat (length events) ≠ (Z.of_nat (length path) - 1)%Z)
   then Raise (JtagError "Invalid path")
   else Ok (bs_of_ints events))%py.

Definition get_events (path : list string) : M t BitSequence :=
  (let* st := gets states in
   lift_res (get_events_in st path))%py.

(** One iteration of the replay loop of [handle_events]. *)
Definition step (event : bool) : M t unit :=
  (let* cur := gets _current in
   let* st := gets states in
   let* o := lift_res (deref st cur) in
   let* x := lift_res (JtagState.getx o event) in
   modify (set_current x))%py.

Definition handle_events (order : bit_order) (events : BitSequence)
    : M t unit :=
  (let* cur := gets _current in
   let* st := gets states in
   let* o := lift_res (deref st cur) in
   let transit := (JtagState.name o, bs_len events, bs_int order events) in
   let* cache := gets _tr_cache in
   match cache !! transit with
   | Some s => modify (set_current s)
   | None =>
       for_each events step ;;
       let* cur' := gets _current in
       modify (set_tr_cache <[transit := cur']>)
   end)%py.

End JtagStateMachine.

Import JtagStateMachine(state_arg, ByName, ByState).

(** ** JtagController *)

Module JtagController.

(** The methods of a controller object whose private state has type [C].
    A method that receives a [BitSequence] runs on the pair of the
    controller and the argument object, since it may consume the
    argument. *)
Record t (C : Type) : Type := mk {
  (** not declared by class [JtagController]; [JtagEngine.reset] calls it *)
  reset : M C unit;
  tap_reset : bool -> M C unit;
  system_reset : M C unit;
  quit : M C unit;
  write_tms : M (C * BitSequence) unit;
  write : M (C * BitSequence) unit;
  read : nat -> M C BitSequence;
}.
Arguments reset {C}.
Arguments tap_reset {C}.
Arguments system_reset {C}.
Arguments quit {C}.
Arguments write_tms {C}.
Arguments write {C}.
Arguments read {C}.

(** Common instruction register codes. *)
Definition INSTRUCTIONS : gmap string Z :=
  <["idcode" := 1%Z]> (<["bypass" := 0%Z]> ∅).

(** Class [JtagController] itself: what a subclass inherits for every
    method it does not define.  Looking up the undeclared attribute
    [reset] fails. *)
Definition abc (C : Type) : t C :=
  {| reset := raise (AttributeError "reset");
     tap_reset := fun use_trst => raise (NotImplementedError "ABC");
     system_reset := ret tt;
     quit := ret tt;
     write_tms := raise (NotImplementedError "ABC");
     write := raise (NotImplementedError "ABC");
     read := fun length => raise (NotImplementedError "ABC") |}.

End JtagController.

(** ** JtagEngine *)

Module JtagEngine.

(** A reference to a [BitSequence] object. *)
Abbreviation loc := nat (only parsing).

Record t (C : Type) : Type := mk {
  _ctrl : C;
  _fsm : JtagStateMachine.t;
  _tr_cache : gmap (string * string) loc;
  (** the [BitSequence] objects allocated so far *)
  heap : list BitSequence;
}.
Arguments mk {C}.
Arguments _ctrl {C}.
Arguments _fsm {C}.
Arguments _tr_cache {C}.
Arguments heap {C}.

Section Methods.
Context {C : Type}.
Variable ctrl : JtagController.t C.
Variable order : bit_order.

Definition set_ctrl (c : C) (self : t C) : t C :=
  mk c (_fsm self) (_tr_cache self) (heap self).
Definition set_fsm (m : JtagStateMachine.t) (self : t C) : t C :=
  mk (_ctrl self) m (_tr_cache self) (heap self).
Definition set_tr_cache
    (f : gmap (string * string) loc -> gmap (string * string) loc)
    (self : t C) : t C :=
  mk (_ctrl self) (_fsm self) (f (_tr_cache self)) (heap self).
Definition set_heap (f : list BitSequence -> list BitSequence)
    (self : t C) : t C :=
  mk (_ctrl self) (_fsm self) (_tr_cache self) (f (heap self)).

(** A call of a method of [self._fsm]. *)
Definition on_fsm {A} (m : M JtagStateMachine.t A) : M (t C) A :=
  fun self => let '(r, m') := m (_fsm self) in (r, set_fsm m' self).

(** A call of a method of [self._ctrl]. *)
Definition on_ctrl {A} (m : M C A) : M (t C) A :=
  fun self => let '(r, c') := m (_ctrl self) in (r, set_ctrl c' self).

(** A new [BitSequence] object. *)
Definition alloc (b : BitSequence) : M (t C) loc :=
  fun self => (Ok (length (heap self)), set_heap (fun h => h ++ [b]) self).

Definition load (l : loc) : M (t C) BitSequence :=
  fun self => match heap self !! l with
              | Some b => (Ok b, self)
              | None => (Raise (KeyError "dangling BitSequence"), self)
              end.

(** [events.copy()] *)
Definition copy (l : loc) : M (t C) loc :=
  (let* b := load l in alloc b)%py.

(** A call of a method of [self._ctrl] on the object at [l], which the
    method may consume. *)
Definition on_ctrl_with (m : M (C * BitSequence) unit) (l : loc)
    : M (t C) unit :=
  (let* b := load l in
   fun self =>
     let '(r, (c', b')) := m (_ctrl self, b) in
     (r, set_heap <[l := b']> (set_ctrl c' self)))%py.

(** [JtagEngine(ctrl)] around the controller in state [c]. *)
Definition __init__ (c : C) : res unit * t C :=
  let '(r, m) := JtagStateMachine.__init__ JtagStateMachine.blank in
  (r, mk c m ∅ []).

Definition reset : M (t C) unit :=
  (on_ctrl (JtagController.reset ctrl) ;;
   on_fsm JtagStateMachine.reset)%py.

Definition change_state (statename : string) : M (t C) unit :=
  (let* cur := on_fsm JtagStateMachine.state in
   let transition := (cur, statename) in
   let* cache := gets _tr_cache in
   let* events :=
     match cache !! transition with
     | None =>
         (* find the state machine path to move to the new instruction *)
         let* path :=
           on_fsm (JtagStateMachine.find_path (ByName statename) None) in
         (* convert the path into an event sequence *)
         let* bits := on_fsm (JtagStateMachine.get_events path) in
         let* events := alloc bits in
         modify (set_tr_cache <[transition := events]>) ;;
         ret events
     | Some events =>
         (* transition already in cache *)
         ret events
     end in
   (* update the remote device tap controller *)
   let* c1 := copy events in
   on_ctrl_with (JtagController.write_tms ctrl) c1 ;;
   (* update the current state machine's state *)
   let* c2 := copy events in
   let* b2 := load c2 in
   on_fsm (JtagStateMachine.handle_events order b2))%py.

Definition go_idle : M (t C) unit := change_state "run_test_idle".

Definition run : M (t C) unit := change_state "run_test_idle".

Definition capture_ir : M (t C) unit := change_state "capture_ir".

Definition write_ir (instruction : loc) : M (t C) unit :=
  (change_state "shift_ir" ;;
   on_ctrl_with (JtagController.write ctrl) instruction ;;
   change_state "update_ir")%py.

Definition capture_dr : M (t C) unit := change_state "capture_dr".

Definition write_dr (data : loc) : M (t C) unit :=
  (change_state "shift_dr" ;;
   on_ctrl_with (JtagController.write ctrl) data ;;
   change_state "update_dr")%py.

Definition read_dr (length : nat) : M (t C) loc :=
  (change_state "shift_dr" ;;
   let* bits := on_ctrl (JtagController.read ctrl length) in
   let* data := alloc bits in
   change_state "update_dr" ;;
   ret data)%py.

End Methods.

End JtagEngine.

(** ** A recording controller *)

Inductive call : Type :=
  | CallReset
  | CallTapReset (use_trst : bool)
  | CallSystemReset
  | CallQuit
  | CallWriteTms (modesel : BitSequence)
  | CallWrite (out : BitSequence)
  | CallRead (length : nat).

(** A controller that implements every operation by logging the call with
    the bits it was handed, and that leaves [consume b] in a bit sequence
    [b] it was given to write. *)
Definition recorder (consume : BitSequence -> BitSequence)
    : JtagController.t (list call) :=
  {| JtagController.reset := modify (fun log => log ++ [CallReset]);
     JtagController.tap_reset := fun use_trst =>
       modify (fun log => log ++ [CallTapReset use_trst]);
     JtagController.system_reset :=
       modify (fun log => log ++ [CallSystemReset]);
     JtagController.quit := modify (fun log => log ++ [CallQuit]);
     JtagController.write_tms := fun '(log, b) =>
       (Ok tt, (log ++ [CallWriteTms b], consume b));
     JtagController.write := fun '(log, b) =>
       (Ok tt, (log ++ [CallWrite b], consume b));
     JtagController.read := fun n log =>
       (Ok (replicate n false), log ++ [CallRead n]) |}.

Definition fsm_new : res unit * JtagStateMachine.t :=
  JtagStateMachine.__init__ JtagStateMachine.blank.
Definition fsm0 : JtagStateMachine.t := snd fsm_new.
Definition wired : gmap string JtagState.t := JtagStateMachine.states fsm0.
Definition state_names : list string := map fst JtagStateMachine.state_table.

(** The transition table of section 4.2 of the specification (IEEE 1149.1):
    state, successor on event 0, successor on event 1. *)
Definition tap_table : list (string * (string * string)) :=
  [("test_logic_reset", ("run_test_idle", "test_logic_reset"));
   ("run_test_idle", ("run_test_idle", "select_dr_scan"));
   ("select_dr_scan", ("capture_dr", "select_ir_scan"));
   ("capture_dr", ("shift_dr", "exit_1_dr"));
   ("shift_dr", ("shift_dr", "exit_1_dr"));
   ("exit_1_dr", ("pause_dr", "update_dr"));
   ("pause_dr", ("pause_dr", "exit_2_dr"));
   ("exit_2_dr", ("shift_dr", "update_dr"));
   ("update_dr", ("run_test_idle", "select_dr_scan"));
   ("select_ir_scan", ("capture_ir", "test_logic_reset"));
   ("capture_ir", ("shift_ir", "exit_1_ir"));
   ("shift_ir", ("shift_ir", "exit_1_ir"));
   ("exit_1_ir", ("pause_ir", "update_ir"));
   ("pause_ir", ("pause_ir", "exit_2_ir"));
   ("exit_2_ir", ("shift_ir", "update_ir"));
   ("update_ir", ("run_test_idle", "select_dr_scan"))].

Definition tap_next (S : string) (event : bool) : option string :=
  match (list_to_map tap_table : gmap string (string * string)) !! S with
  | Some (on0, on1) => Some (if event then on1 else on0)
  | None => None
  end.

(** ** Paths in the state graph *)

(** The references held by the state behind [s]. *)
Definition exits_of (st : gmap string JtagState.t) (s : string) : list string :=
  match st !! s with
  | Some o => JtagState.exits o
  | None => []
  end.

(** Consecutive states are connected by an edge that is not a self-loop. *)
Inductive linked (st : gmap string JtagState.t) : list string -> Prop :=
  | linked_nil : linked st []
  | linked_one a : linked st [a]
  | linked_cons a b l :
      b ∈ exits_of st a -> a <> b -> linked st (b :: l) ->
      linked st (a :: b :: l).

(** A path from [s] to [t], both included, in which no state repeats. *)
Definition simple_path (st : gmap string JtagState.t) (s t : string)
    (p : list string) : Prop :=
  head p = Some s /\ last p = Some t /\ NoDup p /\ linked st p.

(** The enumeration of section 4.2: all simple paths from [state] to
    [target] that extend [path], depth first, the event-0 edge of a state
    before its event-1 edge, an edge being dropped when it is a self-loop or
    leads back into the path so far.  The paths come in the order of their
    discovery; [depth] bounds the number of states after [path]. *)
Fixpoint dfs_paths (depth : nat) (st : gmap string JtagState.t)
    (state target : string) (path : list string) : list (list string) :=
  match depth with
  | O => []
  | S depth' =>
      if decide (state = target) then [path ++ [state]]
      else
        flat_map (fun xstate =>
          if decide (xstate = state) then []
          else if decide (xstate ∈ path) then []
          else dfs_paths depth' st xstate target (path ++ [state]))
          (exits_of st state)
  end.

(** [p] is the first among the shortest elements of [l]. *)
Definition first_shortest {A} (p : list A) (l : list (list A)) : Prop :=
  exists l1 l2, l = l1 ++ p :: l2 /\
    Forall (fun q => length p < length q)%nat l1 /\
    Forall (fun q => length p <= length q)%nat l2.

(** Plain replay: each bit in turn through [getx], from state [s]. *)
Definition replay (st : gmap string JtagState.t) (s : string)
    (bits : BitSequence) : res string :=
  res_fold (fun cur event =>
    (try* o := JtagStateMachine.deref st cur in JtagState.getx o event)%py)
    bits s.

Arguments JtagStateMachine.next_path : simpl never.

Definition arg_ref (a : state_arg) : string :=
  match a with
  | ByName n => n
  | ByState r => r
  end.

(** The state a call of [find_path] starts from: [source], or the current
    state when [source] is [None]. *)
Definition source_ref (m : JtagStateMachine.t) (source : option state_arg)
    : string :=
  match source with
  | None => JtagStateMachine._current m
  | Some a => arg_ref a
  end.

(** ** Auxiliary definitions for the path search *)

(** The better of the best path so far [b] and a candidate [p]. *)
Definition pick (b p : list string) : list string :=
  if (length p <? length b)%nat then p else b.

(** The body of the [for] loop of [next_path]. *)
Definition try_exit (st : gmap string JtagState.t) (depth' : nat)
    (state target : string) (path : list string)
    (paths : list (list string)) (xstate : string) : res (list (list string)) :=
  if decide (xstate = state) then Ok paths
  else if decide (xstate ∈ path) then Ok paths
  else
    (try* npath := JtagStateMachine.next_path depth' st xstate target (path ++ [state]) in
     match npath with
     | [] => Ok paths
     | _ :: _ => Ok (paths ++ [npath])
     end)%py.

(** The sub-enumeration behind one exit. *)
Definition branch (st : gmap string JtagState.t) (depth' : nat)
    (state target : string) (path : list string)
    (xstate : string) : list (list string) :=
  if decide (xstate = state) then []
  else if decide (xstate ∈ path) then []
  else dfs_paths depth' st xstate target (path ++ [state]).

(** [r] is a path that was found. *)
Definition found (r : res (list string)) : bool :=
  match r with
  | Ok (_ :: _) => true
  | _ => false
  end.

(** ** Invariants of the state machine *)

(** Every entry of the transition cache records a replay: its key is the
    start state with the length and integer value of some bit sequence, its
    value the state that replaying those bits from there leads to. *)
Definition cache_ok (order : bit_order)
    (cache : gmap (string * nat * Z) string) : Prop :=
  forall n len v r, cache !! (n, len, v) = Some r ->
    exists bits : BitSequence,
      len = bs_len bits /\ v = bs_int order bits /\ replay wired n bits = Ok r.

Definition fsm_wf (order : bit_order) (m : JtagStateMachine.t) : Prop :=
  JtagStateMachine.states m = wired /\
  JtagStateMachine._current m ∈ state_names /\
  cache_ok order (JtagStateMachine._tr_cache m).

(** The states a machine goes through between calls of its methods. *)
Inductive fsm_reachable (order : bit_order) : JtagStateMachine.t -> Prop :=
  | reach_new : fsm_reachable order fsm0
  | reach_reset m :
      fsm_reachable order m ->
      fsm_reachable order (snd (JtagStateMachine.reset m))
  | reach_handle_events m events :
      fsm_reachable order m ->
      fsm_reachable order (snd (JtagStateMachine.handle_events order events m)).

(** The check behind the round trip, for one pair of states. *)
Definition round_trip_check (st : gmap string JtagState.t) (s t : string)
    : bool :=
  match JtagStateMachine.next_path 16 st s t [] with
  | Ok p =>
      match JtagStateMachine.get_events_in st p with
      | Ok bits =>
          match replay st s bits with
          | Ok r => bool_decide (r = t)
          | Raise _ => false
          end
      | Raise _ => false
      end
  | Raise _ => false
  end.

(** ** Mode tags and controller capabilities *)

(** The mode tags of section 3 of the specification. *)
Definition mode_tags : list string :=
  ["reset"; "idle"; "dr"; "ir"; "shift"; "capture"; "pause"; "update"].

(** The call [m] on an object in state [s] raises [NotImplementedError]. *)
Definition not_implemented {S A} (m : M S A) (s : S) : Prop :=
  exists msg, fst (m s) = Raise (NotImplementedError msg).

(** Every operation inherited from class [JtagController] raises
    [NotImplementedError]. *)
Definition all_operations_raise (C : Type) : Prop :=
  forall (c : C) (use_trst : bool) (bits : BitSequence) (length : nat),
    not_implemented (JtagController.tap_reset (JtagController.abc C) use_trst) c /\
    not_implemented (JtagController.system_reset (JtagController.abc C)) c /\
    not_implemented (JtagController.quit (JtagController.abc C)) c /\
    not_implemented (JtagController.write_tms (JtagController.abc C)) (c, bits) /\
    not_implemented (JtagController.write (JtagController.abc C)) (c, bits) /\
    not_implemented (JtagController.read (JtagController.abc C) length) c.

(** ** Invariants of the engine *)

(** The mode-select bits that lead from [s] to [t]: [get_events] of
    [find_path]. *)
Definition events_for (s t : string) : res BitSequence :=
  (try* path :=
     JtagStateMachine.next_path JtagStateMachine.recursion_limit wired s t [] in
   JtagStateMachine.get_events_in wired path)%py.

(** Every entry of the engine cache refers to a live [BitSequence] that
    still holds the bits synthesized for its pair of states. *)
Definition engine_cache_ok {C} (e : JtagEngine.t C) : Prop :=
  forall s t l, JtagEngine._tr_cache e !! (s, t) = Some l ->
    exists bits, JtagEngine.heap e !! l = Some bits /\
      events_for s t = Ok bits /\ replay wired s bits = Ok t.

Definition engine_wf {C} (order : bit_order) (e : JtagEngine.t C) : Prop :=
  fsm_wf order (JtagEngine._fsm e) /\ engine_cache_ok e.

(** The last two statements of [change_state]: a copy of [events] goes to
    the controller, another one to the state machine. *)
Definition transmit {C} (ctrl : JtagController.t C) (order : bit_order)
    (events : JtagEngine.loc) : M (JtagEngine.t C) unit :=
  (let* c1 := JtagEngine.copy events in
   JtagEngine.on_ctrl_with (JtagController.write_tms ctrl) c1 ;;
   let* c2 := JtagEngine.copy events in
   let* b2 := JtagEngine.load c2 in
   JtagEngine.on_fsm (JtagStateMachine.handle_events order b2))%py.

(** The current state of the engine's state machine. *)
Definition current {C} (e : JtagEngine.t C) : string :=
  JtagStateMachine._current (JtagEngine._fsm e).

(** The engine right after [JtagEngine(ctrl)]. *)
Definition engine_new {C} (c : C) : JtagEngine.t C :=
  snd (JtagEngine.__init__ c).

(** The object at [l] is not one the engine cache refers to. *)
Definition not_cached {C} (e : JtagEngine.t C) (l : nat) : Prop :=
  forall k l', JtagEngine._tr_cache e !! k = Some l' -> l' <> l.

(** The event bits of the [write_ir] scenario as section 8 of the
    specification gives them: 0,1 for capture_ir -> shift_ir and 1,1 for
    shift_ir -> exit_1_ir -> update_ir. *)
Definition write_ir_bits_as_claimed : Prop :=
  JtagStateMachine.get_events_in wired ["capture_ir"; "shift_ir"]
  = Ok [false; true] /\
  JtagStateMachine.get_events_in wired ["shift_ir"; "exit_1_ir"; "update_ir"]
  = Ok [true; true].

(** ** Walks and event synthesis *)

(** Consecutive states are connected by an edge; self-loops count. *)
Inductive walk (st : gmap string JtagState.t) : list string -> Prop :=
  | walk_nil : walk st []
  | walk_one a : walk st [a]
  | walk_cons a b l :
      b ∈ exits_of st a -> walk st (b :: l) -> walk st (a :: b :: l).

(** The body of the outer loop of [get_events]. *)
Definition pair_events (st : gmap string JtagState.t) (events : list nat)
    (pair : string * string) : res (list nat) :=
  let '(sstate, dstate) := pair in
  (try* o := JtagStateMachine.deref st sstate in
   Ok (fold_left (fun events '(epos, xstate) =>
         if decide (xstate = dstate) then events ++ [epos]
         else events)
       (JtagStateMachine.enumerate (JtagState.exits o)) events))%py.

(** ** Engine states reachable through the public methods *)

(** The engine is consistent and [l] is a live object that the engine
    cache does not refer to, such as a sequence the caller built or got
    from [read_dr]. *)
Definition holds_object {C} (order : bit_order) (l : nat)
    (e : JtagEngine.t C) : Prop :=
  engine_wf order e /\ not_cached e l /\ is_Some (JtagEngine.heap e !! l).

(** The engine states between calls of the public methods, starting from
    [JtagEngine(ctrl)] with the controller in state [c0]; a step is taken
    whether the call returns or raises.  [go_idle], [run], [capture_ir]
    and [capture_dr] are calls of [change_state]; the caller may build
    [BitSequence] objects and passes objects of its own to [write_ir] and
    [write_dr]. *)
Inductive engine_reachable {C} (ctrl : JtagController.t C)
    (order : bit_order) (c0 : C) : JtagEngine.t C -> Prop :=
  | reach_engine_new : engine_reachable ctrl order c0 (engine_new c0)
  | reach_engine_reset e :
      engine_reachable ctrl order c0 e ->
      engine_reachable ctrl order c0 (snd (JtagEngine.reset ctrl e))
  | reach_change_state e statename :
      engine_reachable ctrl order c0 e ->
      engine_reachable ctrl order c0
        (snd (JtagEngine.change_state ctrl order statename e))
  | reach_alloc e bits :
      engine_reachable ctrl order c0 e ->
      engine_reachable ctrl order c0 (snd (JtagEngine.alloc bits e))
  | reach_write_ir e l :
      engine_reachable ctrl order c0 e ->
      not_cached e l -> is_Some (JtagEngine.heap e !! l) ->
      engine_reachable ctrl order c0
        (snd (JtagEngine.write_ir ctrl order l e))
  | reach_write_dr e l :
      engine_reachable ctrl order c0 e ->
      not_cached e l -> is_Some (JtagEngine.heap e !! l) ->
      engine_reachable ctrl order c0
        (snd (JtagEngine.write_dr ctrl order l e))
  | reach_read_dr e n :
      engine_reachable ctrl order c0 e ->
      engine_reachable ctrl order c0
        (snd (JtagEngine.read_dr ctrl order n e)).

(** The mode-select bits a recording controller received since its last
    [reset], in the order received. *)
Definition tms_step (acc : BitSequence) (c : call) : BitSequence :=
  match c with
  | CallReset => []
  | CallWriteTms modesel => acc ++ modesel
  | _ => acc
  end.

Definition tms_since_reset (log : list call) : BitSequence :=
  fold_left tms_step log [].

(** Replaying what the controller received since its last [reset] gives
    the current state of the state machine. *)
Definition in_sync (e : JtagEngine.t (list call)) : Prop :=
  replay wired "test_logic_reset" (tms_since_reset (JtagEngine._ctrl e))
  = Ok (current e).

(** Two states that were created but never wired: both exits of each
    still are the state itself. *)
Definition unwired_pair : JtagStateMachine.t :=
  JtagStateMachine.mk
    (<["a" := JtagState.__init__ "a" []]>
       (<["b" := JtagState.__init__ "b" []]> ∅))
    "a" ∅.

(** A controller that implements exactly the operations class
    [JtagController] declares, as [recorder] does them; like the class, it
    has no [reset] attribute. *)
Definition declared_recorder (consume : BitSequence -> BitSequence)
    : JtagController.t (list call) :=
  {| JtagController.reset :=
       JtagController.reset (JtagController.abc (list call));
     JtagController.tap_reset := JtagController.tap_reset (recorder consume);
     JtagController.system_reset :=
       JtagController.system_reset (recorder consume);
     JtagController.quit := JtagController.quit (recorder consume);
     JtagController.write_tms := JtagController.write_tms (recorder consume);
     JtagController.write := JtagController.write (recorder consume);
     JtagController.read := JtagController.read (recorder consume) |}.

(** Every exit of every state refers to a state of the table, as
    references to objects always do. *)
Definition closed_wiring (st : gmap string JtagState.t) : Prop :=
  map_Forall (fun _ o =>
    Forall (fun x => is_Some (st !! x)) (JtagState.exits o)) st.

(** * Properties *)

(** ** The wired graph *)

Lemma fsm_new_ok : fst fsm_new = Ok tt.
Proof. vm_compute. reflexivity. Qed.

Lemma state_names_length : length state_names = 16%nat.
Proof. reflexivity. Qed.

Lemma state_names_NoDup : NoDup state_names.
Proof. compute_done. Qed.

Lemma wired_dom : dom wired = list_to_set state_names.
Proof. compute_done. Qed.

Lemma wired_is_Some (S : string) : S ∈ state_names <-> is_Some (wired !! S).
Proof.
  rewrite <- elem_of_dom, wired_dom, elem_of_list_to_set. reflexivity.
Qed.

(** Splits [S ∈ state_names] into the sixteen cases. *)
Ltac each_state H :=
  unfold state_names in H; simpl in H;
  repeat (apply elem_of_cons in H as [-> | H]);
  [ .. | apply elem_of_nil in H; destruct H ].

(** What [__init__] leaves in every state object. *)
Lemma wired_lookup (S : string) :
  S ∈ state_names ->
  exists ms a b,
    wired !! S = Some (JtagState.mk S ms [a; b]) /\
    a ∈ state_names /\ b ∈ state_names /\ a <> b.
Proof.
  intros HS. each_state HS;
    (eexists _, _, _; split; [vm_compute; reflexivity |];
     split; [|split]; [compute_done .. | discriminate]).
Qed.

(** C1: the state machine built by [__init__] is the 16-state TAP graph of
    the transition table: construction succeeds, there are exactly the 16
    named states, and for each of them and each event [getx] is defined,
    gives the successor listed in the table, and stays within the 16
    states. *)
Theorem tap_graph_exact :
  fst fsm_new = Ok tt /\
  length state_names = 16%nat /\ NoDup state_names /\
  dom wired = list_to_set state_names /\
  Forall (fun S =>
    exists o, wired !! S = Some o /\ JtagState.name o = S /\
      forall event : bool,
        exists next, JtagState.getx o event = Ok next /\
          tap_next S event = Some next /\ next ∈ state_names)
    state_names.
Proof.
  split; [exact fsm_new_ok |].
  split; [reflexivity |].
  split; [exact state_names_NoDup |].
  split; [exact wired_dom |].
  apply Forall_forall. intros S HS.
  each_state HS;
    (eexists; split; [vm_compute; reflexivity |]; split; [reflexivity |];
     intros [|]; eexists; (split; [vm_compute; reflexivity |]);
     (split; [vm_compute; reflexivity |]);
     compute_done).
Qed.

(** ** The shortest candidate *)

Section Shortest.
Import JtagStateMachine.

Lemma min_by_len_cons b p l : min_by_len b (p :: l) = min_by_len (pick b p) l.
Proof. unfold pick. simpl. destruct (length p <? length b)%nat; reflexivity. Qed.

Lemma pick_assoc a b c : pick (pick a b) c = pick a (pick b c).
Proof.
  unfold pick.
  destruct (Nat.ltb_spec (length b) (length a));
    destruct (Nat.ltb_spec (length c) (length b));
    repeat match goal with
           | |- context [(?x <? ?y)%nat] => destruct (Nat.ltb_spec x y)
           end; try reflexivity; lia.
Qed.

Lemma min_by_len_pick b p l : min_by_len b (p :: l) = pick b (min_by_len p l).
Proof.
  revert b p. induction l as [|q l IH]; intros b p.
  - reflexivity.
  - rewrite min_by_len_cons, IH, (IH p q), pick_assoc. reflexivity.
Qed.

Lemma min_by_len_app b l1 l2 :
  min_by_len b (l1 ++ l2) = min_by_len (min_by_len b l1) l2.
Proof.
  revert b. induction l1 as [|p l1 IH]; intros b; [reflexivity |].
  rewrite <- app_comm_cons, !min_by_len_cons. apply IH.
Qed.

Lemma min_by_len_elem b l : min_by_len b l ∈ b :: l.
Proof.
  revert b. induction l as [|p l IH]; intros b.
  - left.
  - rewrite min_by_len_cons. specialize (IH (pick b p)).
    apply elem_of_cons in IH as [-> | IH].
    + unfold pick. destruct (length p <? length b)%nat.
      * right. left.
      * left.
    + right. right. exact IH.
Qed.

Lemma shortest_elem l : l <> [] -> shortest l ∈ l.
Proof. destruct l as [|p l]; [congruence |]. intros _. apply min_by_len_elem. Qed.

Lemma min_by_len_first rest :
  forall pre b mid,
    Forall (fun q => length b < length q)%nat pre ->
    Forall (fun q => length b <= length q)%nat mid ->
    first_shortest (min_by_len b rest) (pre ++ b :: mid ++ rest).
Proof.
  induction rest as [|p rest IH]; intros pre b mid Hpre Hmid.
  - exists pre, mid. rewrite app_nil_r. auto.
  - simpl. destruct (Nat.ltb_spec (length p) (length b)) as [Hlt | Hge].
    + specialize (IH (pre ++ b :: mid) p []).
      rewrite <- app_assoc in IH. simpl in IH. apply IH; [| constructor].
      apply Forall_app. split.
      * eapply Forall_impl; [exact Hpre |]. simpl. intros; lia.
      * constructor; [exact Hlt |].
        eapply Forall_impl; [exact Hmid |]. simpl. intros; lia.
    + specialize (IH pre b (mid ++ [p])).
      rewrite <- app_assoc in IH. simpl in IH. apply IH; [exact Hpre |].
      apply Forall_app. split; [exact Hmid |]. constructor; [exact Hge | constructor].
Qed.

(** Python's [min] with [key=len] returns the first of the shortest. *)
Lemma shortest_first l : l <> [] -> first_shortest (shortest l) l.
Proof.
  destruct l as [|p l]; [congruence |]. intros _.
  apply (min_by_len_first l [] p []); constructor.
Qed.

Lemma min_by_len_collect b (ls : list (list (list string))) :
  Forall (Forall (fun r => r <> [])) ls ->
  min_by_len b (filter (fun r => r <> []) (map shortest ls))
  = min_by_len b (concat ls).
Proof.
  revert b. induction ls as [|l ls IH]; intros b Hne; [reflexivity |].
  apply Forall_cons in Hne as [Hl Hls]. simpl.
  destruct l as [|p l].
  - simpl. rewrite filter_cons_False by (intros H; apply H; reflexivity).
    apply IH, Hls.
  - assert (shortest (p :: l) <> []) as Hs.
    { pose proof (shortest_elem (p :: l) ltac:(discriminate)) as Hin.
      rewrite Forall_forall in Hl. apply Hl, Hin. }
    rewrite filter_cons_True by exact Hs.
    rewrite min_by_len_cons, IH by exact Hls.
    rewrite min_by_len_app. f_equal.
    rewrite min_by_len_pick. reflexivity.
Qed.

Lemma shortest_collect (ls : list (list (list string))) :
  Forall (Forall (fun r => r <> [])) ls ->
  shortest (filter (fun r => r <> []) (map shortest ls)) = shortest (concat ls).
Proof.
  induction ls as [|l ls IH]; intros Hne; [reflexivity |].
  apply Forall_cons in Hne as [Hl Hls]. simpl.
  destruct l as [|p l].
  - simpl. rewrite filter_cons_False by (intros H; apply H; reflexivity).
    apply IH, Hls.
  - assert (shortest (p :: l) <> []) as Hs.
    { pose proof (shortest_elem (p :: l) ltac:(discriminate)) as Hin.
      rewrite Forall_forall in Hl. apply Hl, Hin. }
    rewrite filter_cons_True by exact Hs.
    change (shortest (shortest (p :: l) :: ?x)) with (min_by_len (shortest (p :: l)) x).
    rewrite min_by_len_collect by exact Hls.
    simpl. rewrite min_by_len_app. reflexivity.
Qed.

End Shortest.

(** ** Path search against the enumeration of simple paths *)

Section PathSearch.
Import JtagStateMachine.
Variable st : gmap string JtagState.t.

Lemma elem_of_flat_map {A B} (f : A -> list B) (l : list A) (y : B) :
  y ∈ flat_map f l <-> exists x, x ∈ l /\ y ∈ f x.
Proof.
  rewrite list_elem_of_In, in_flat_map.
  split; intros (x & Hx & Hy); exists x;
    rewrite ?list_elem_of_In in *; split; assumption.
Qed.

(** Every enumerated path ends in the target. *)
Lemma dfs_paths_last depth s t pre r :
  r ∈ dfs_paths depth st s t pre -> exists r', r = r' ++ [t].
Proof.
  revert s pre. induction depth as [|d IH]; intros s pre Hr; simpl in Hr.
  - apply elem_of_nil in Hr. destruct Hr.
  - destruct (decide (s = t)) as [-> | Hne].
    + apply list_elem_of_singleton in Hr. subst r. eauto.
    + apply elem_of_flat_map in Hr as (x & _ & Hr).
      destruct (decide (x = s)); [apply elem_of_nil in Hr; destruct Hr |].
      destruct (decide (x ∈ pre)); [apply elem_of_nil in Hr; destruct Hr |].
      eapply IH, Hr.
Qed.

Lemma dfs_paths_nonempty depth s t pre :
  Forall (fun r => r <> []) (dfs_paths depth st s t pre).
Proof.
  apply Forall_forall. intros r Hr.
  apply dfs_paths_last in Hr as (r' & ->). destruct r'; discriminate.
Qed.

(** Soundness: what is enumerated extends [pre] by a simple path. *)
Lemma dfs_paths_sound depth s t pre r :
  s ∉ pre ->
  r ∈ dfs_paths depth st s t pre ->
  exists q, r = pre ++ q /\ simple_path st s t q /\
    forall x, x ∈ q -> x ∉ pre.
Proof.
  revert s pre r. induction depth as [|d IH]; intros s pre r Hs Hr; simpl in Hr.
  - apply elem_of_nil in Hr. destruct Hr.
  - destruct (decide (s = t)) as [-> | Hne].
    + apply list_elem_of_singleton in Hr. subst r.
      exists [t]. split; [reflexivity |]. split.
      * repeat split; [apply NoDup_singleton | constructor].
      * intros x Hx. apply list_elem_of_singleton in Hx. subst x. exact Hs.
    + apply elem_of_flat_map in Hr as (x & Hx & Hr).
      destruct (decide (x = s)) as [| Hxs];
        [apply elem_of_nil in Hr; destruct Hr |].
      destruct (decide (x ∈ pre)) as [| Hxp];
        [apply elem_of_nil in Hr; destruct Hr |].
      apply IH in Hr as (q & -> & (Hh & Hl & Hnd & Hlk) & Hfresh).
      2:{ rewrite elem_of_app, list_elem_of_singleton. tauto. }
      destruct q as [|x' q]; [discriminate |].
      simpl in Hh. injection Hh as ->.
      exists (s :: x :: q). split; [rewrite <- app_assoc; reflexivity |].
      split.
      * repeat split.
        -- exact Hl.
        -- apply NoDup_cons. split; [| exact Hnd].
           intros Hin. apply (Hfresh s Hin).
           rewrite elem_of_app, list_elem_of_singleton. tauto.
        -- constructor; [exact Hx | congruence | exact Hlk].
      * intros y Hy. apply elem_of_cons in Hy as [-> | Hy]; [exact Hs |].
        intros Hyp. apply (Hfresh y Hy).
        rewrite elem_of_app. tauto.
Qed.

(** Completeness: every simple path that fits in [depth] is enumerated. *)
Lemma dfs_paths_complete q :
  forall depth s t pre,
    (length q <= depth)%nat ->
    simple_path st s t q ->
    (forall x, x ∈ q -> x ∉ pre) ->
    pre ++ q ∈ dfs_paths depth st s t pre.
Proof.
  induction q as [|a q IH]; intros depth s t pre Hlen (Hh & Hl & Hnd & Hlk) Hfresh.
  - discriminate.
  - simpl in Hh. injection Hh as ->.
    destruct depth as [|d]; [simpl in Hlen; lia |]. simpl.
    destruct q as [|b q].
    + simpl in Hl. injection Hl as ->.
      rewrite decide_True by reflexivity. left.
    + apply NoDup_cons in Hnd as [Hs Hnd].
      assert (s <> t) as Hst.
      { intros ->. apply Hs. change (last (t :: b :: q)) with (last (b :: q)) in Hl.
        apply last_Some_elem_of in Hl. exact Hl. }
      rewrite decide_False by exact Hst.
      inversion Hlk as [| | ? ? ? Hedge Hab Hlk']; subst.
      apply elem_of_flat_map. exists b. split; [exact Hedge |].
      rewrite decide_False by congruence.
      rewrite decide_False by (apply Hfresh; right; left).
      replace (pre ++ s :: b :: q) with ((pre ++ [s]) ++ b :: q)
        by (rewrite <- app_assoc; reflexivity).
      apply IH.
      * simpl in *. lia.
      * repeat split; [exact Hl | exact Hnd | exact Hlk'].
      * intros x Hx. rewrite elem_of_app, list_elem_of_singleton.
        intros [Hp | ->].
        -- apply (Hfresh x); [right; exact Hx | exact Hp].
        -- exact (Hs Hx).
Qed.

Lemma next_path_unfold depth' state target path :
  next_path (S depth') st state target path =
  if decide (state = target) then Ok (path ++ [state])
  else
    (try* o := deref st state in
     try* paths :=
       res_fold (try_exit st depth' state target path) (JtagState.exits o) [] in
     Ok (shortest paths))%py.
Proof. reflexivity. Qed.

Lemma loop_collects depth' state target path l :
  (forall x r, next_path depth' st x target (path ++ [state]) = Ok r ->
     r = shortest (dfs_paths depth' st x target (path ++ [state]))) ->
  forall acc paths,
    res_fold (try_exit st depth' state target path) l acc = Ok paths ->
    paths = acc ++ filter (fun r => r <> [])
              (map shortest (map (branch st depth' state target path) l)).
Proof.
  intros IH. induction l as [|x l IHl]; intros acc paths Hf; simpl in Hf.
  - injection Hf as <-. rewrite app_nil_r. reflexivity.
  - unfold try_exit at 1 in Hf. simpl. unfold branch at 1.
    destruct (decide (x = state)).
    { simpl in Hf. rewrite filter_cons_False by (intros H; apply H; reflexivity).
      apply IHl, Hf. }
    destruct (decide (x ∈ path)).
    { simpl in Hf. rewrite filter_cons_False by (intros H; apply H; reflexivity).
      apply IHl, Hf. }
    destruct (next_path depth' st x target (path ++ [state])) as [npath|] eqn:Hn;
      [| discriminate].
    apply IH in Hn. rewrite <- Hn. simpl in Hf.
    destruct npath as [|y npath].
    + simpl in Hf. rewrite filter_cons_False by (intros H; apply H; reflexivity).
      apply IHl, Hf.
    + simpl in Hf. rewrite filter_cons_True by discriminate.
      apply IHl in Hf. rewrite Hf, <- app_assoc. reflexivity.
Qed.

(** Whenever [next_path] returns, it returns the first of the shortest
    paths of the enumeration (or the empty list when there is none). *)
Lemma next_path_dfs depth :
  forall state target path r,
    next_path depth st state target path = Ok r ->
    r = shortest (dfs_paths depth st state target path).
Proof.
  induction depth as [|d IH]; intros state target path r Hr.
  - discriminate.
  - rewrite next_path_unfold in Hr. simpl.
    destruct (decide (state = target)); [injection Hr as <-; reflexivity |].
    unfold deref, exits_of in *.
    destruct (st !! state) as [o|]; [| discriminate]. simpl in Hr.
    destruct (res_fold _ _ _) as [paths|] eqn:Hf; [| discriminate].
    simpl in Hr. injection Hr as <-.
    apply loop_collects in Hf; [| intros x r; apply IH].
    rewrite Hf. simpl.
    rewrite shortest_collect.
    + rewrite flat_map_concat_map. reflexivity.
    + apply Forall_forall. intros l Hl.
      apply list_elem_of_fmap in Hl as (x & -> & _).
      unfold branch. repeat case_decide; try constructor.
      apply dfs_paths_nonempty.
Qed.

(** A result does not depend on how much recursion depth was to spare. *)
Lemma next_path_mono depth :
  forall state target path r k,
    next_path depth st state target path = Ok r ->
    next_path (depth + k) st state target path = Ok r.
Proof.
  induction depth as [|d IH]; intros state target path r k Hr.
  - discriminate.
  - change (S d + k)%nat with (S (d + k)).
    rewrite next_path_unfold in Hr |- *.
    destruct (decide (state = target)); [exact Hr |].
    destruct (deref st state) as [o|]; [| discriminate]. simpl in Hr |- *.
    destruct (res_fold (try_exit st d state target path) _ _) as [paths|] eqn:Hf;
      [| discriminate].
    enough (forall l acc ps,
      res_fold (try_exit st d state target path) l acc = Ok ps ->
      res_fold (try_exit st (d + k) state target path) l acc = Ok ps) as Hloop.
    { rewrite (Hloop _ _ _ Hf). exact Hr. }
    clear -IH. induction l as [|x l IHl]; intros acc ps Hl; simpl in Hl |- *.
    + exact Hl.
    + unfold try_exit at 1 in Hl. unfold try_exit at 1.
      destruct (decide (x = state)); [apply IHl, Hl |].
      destruct (decide (x ∈ path)); [apply IHl, Hl |].
      destruct (next_path d st x target (path ++ [state])) as [np|] eqn:Hn;
        [| discriminate].
      rewrite (IH _ _ _ _ k Hn). simpl in Hl |- *.
      destruct np; apply IHl, Hl.
Qed.

End PathSearch.

(** ** Path search on the TAP graph *)

Lemma elem_of_forallb {A} (f : A -> bool) (l : list A) (x : A) :
  forallb f l = true -> x ∈ l -> f x = true.
Proof.
  intros Hall Hx. apply list_elem_of_In in Hx.
  rewrite forallb_forall in Hall. apply Hall, Hx.
Qed.

Lemma found_path (r : res (list string)) :
  found r = true -> exists p, r = Ok p /\ p <> [].
Proof.
  destruct r as [[|x p]|]; try discriminate.
  intros _. eexists. split; [reflexivity | discriminate].
Qed.

(** On the TAP graph the search returns a path for every pair of states,
    within a recursion depth of 16. *)
Lemma next_path_found (s t : string) :
  s ∈ state_names -> t ∈ state_names ->
  exists p, JtagStateMachine.next_path 16 wired s t [] = Ok p /\ p <> [].
Proof.
  intros Hs Ht.
  assert (forallb (fun s => forallb (fun t =>
            found (JtagStateMachine.next_path 16 wired s t []))
            state_names) state_names = true) as Hall
    by (vm_compute; reflexivity).
  exact (found_path _
           (elem_of_forallb _ _ _ (elem_of_forallb _ _ _ Hall Hs) Ht)).
Qed.

Lemma linked_defined st q :
  linked st q -> forall x, x ∈ q -> is_Some (st !! x) \/ last q = Some x.
Proof.
  induction 1 as [| a | a b l Hedge Hab Hl IH]; intros x Hx.
  - apply elem_of_nil in Hx. destruct Hx.
  - apply list_elem_of_singleton in Hx. subst. right. reflexivity.
  - apply elem_of_cons in Hx as [-> | Hx].
    + left. unfold exits_of in Hedge. destruct (st !! a); [eauto |].
      apply elem_of_nil in Hedge. destruct Hedge.
    + destruct (IH x Hx) as [? | Hlast]; [left; assumption |].
      right. exact Hlast.
Qed.

(** A simple path of the TAP graph has at most 16 states. *)
Lemma simple_path_length s t q :
  t ∈ state_names -> simple_path wired s t q ->
  (length q <= length state_names)%nat.
Proof.
  intros Ht (_ & Hl & Hnd & Hlk).
  apply submseteq_length, NoDup_submseteq; [exact Hnd |].
  intros x Hx. destruct (linked_defined _ _ Hlk x Hx) as [Hsome | Hlast].
  - apply wired_is_Some, Hsome.
  - congruence.
Qed.

Lemma resolve_ok (m : JtagStateMachine.t) (a : state_arg) :
  JtagStateMachine.states m = wired -> arg_ref a ∈ state_names ->
  JtagStateMachine.resolve a m = (Ok (arg_ref a), m).
Proof.
  intros Hst Ha. apply wired_is_Some in Ha as [o Ho].
  destruct a as [n | r]; [| reflexivity].
  cbn [arg_ref] in Ho.
  unfold JtagStateMachine.resolve, JtagStateMachine.__getitem__,
    JtagStateMachine.deref.
  rewrite Hst, Ho. reflexivity.
Qed.

Lemma find_path_eq (m : JtagStateMachine.t) (target : state_arg)
    (source : option state_arg) :
  JtagStateMachine.states m = wired ->
  source_ref m source ∈ state_names -> arg_ref target ∈ state_names ->
  JtagStateMachine.find_path target source m =
  (JtagStateMachine.next_path JtagStateMachine.recursion_limit wired
     (source_ref m source) (arg_ref target) [], m).
Proof.
  intros Hst Hs Ht.
  unfold JtagStateMachine.find_path, bind.
  assert (match source with
          | Some a => JtagStateMachine.resolve a
          | None => JtagStateMachine.state
          end m = (Ok (source_ref m source), m)) as ->.
  { destruct source as [a |]; [apply resolve_ok; assumption | reflexivity]. }
  rewrite (resolve_ok m target Hst Ht).
  unfold gets, lift_res. rewrite Hst. reflexivity.
Qed.

(** C2: between any two of the 16 states [find_path] returns a path from
    the source to the target in which no state repeats and consecutive
    states are joined by an edge that is not a self-loop; no simple path
    between them is shorter, the returned one is the first of the shortest
    in the event-0-first depth-first enumeration, and it is [[source]] when
    source and target coincide.  The state machine is left as it was. *)
Theorem find_path_shortest (m : JtagStateMachine.t) (target : state_arg)
    (source : option state_arg) :
  JtagStateMachine.states m = wired ->
  source_ref m source ∈ state_names -> arg_ref target ∈ state_names ->
  let s := source_ref m source in
  let t := arg_ref target in
  exists p,
    JtagStateMachine.find_path target source m = (Ok p, m) /\
    simple_path wired s t p /\
    (forall q, simple_path wired s t q -> (length p <= length q)%nat) /\
    first_shortest p (dfs_paths (length state_names) wired s t []) /\
    (s = t -> p = [s]).
Proof.
  intros Hst Hs Ht s t. subst s t.
  set (s := source_ref m source) in *. set (t := arg_ref target) in *.
  destruct (next_path_found s t Hs Ht) as (p & Hp & Hne).
  exists p. rewrite find_path_eq by assumption. fold s t.
  pose proof (next_path_mono wired 16 s t [] p 984 Hp) as Hlim.
  change (16 + 984)%nat with JtagStateMachine.recursion_limit in Hlim.
  rewrite Hlim. split; [reflexivity |].
  pose proof (next_path_dfs wired 16 s t [] p Hp) as Hdfs.
  assert (dfs_paths 16 wired s t [] <> []) as Hsome.
  { intros Hnil. rewrite Hnil in Hdfs. exact (Hne Hdfs). }
  pose proof (shortest_first _ Hsome) as Hfirst. rewrite <- Hdfs in Hfirst.
  pose proof (shortest_elem _ Hsome) as Hin.
  rewrite <- Hdfs in Hin.
  apply dfs_paths_sound in Hin as (q & Hq & Hsimple & _);
    [| apply not_elem_of_nil].
  change ([] ++ q) with q in Hq. subst q.
  split; [exact Hsimple |]. split; [| split].
  - intros q Hq.
    pose proof (simple_path_length s t q Ht Hq) as Hlen.
    pose proof (dfs_paths_complete wired q 16 s t [] Hlen Hq
                  ltac:(intros; apply not_elem_of_nil)) as Hmem.
    change ([] ++ q) with q in Hmem.
    destruct Hfirst as (l1 & l2 & Heq & H1 & H2). rewrite Heq in Hmem.
    apply elem_of_app in Hmem as [Hmem | Hmem].
    + rewrite Forall_forall in H1. specialize (H1 q Hmem). lia.
    + apply elem_of_cons in Hmem as [-> | Hmem]; [lia |].
      rewrite Forall_forall in H2. exact (H2 q Hmem).
  - exact Hfirst.
  - intros Heq. rewrite Heq in Hp.
    change 16%nat with (S 15) in Hp. rewrite next_path_unfold in Hp.
    rewrite decide_True in Hp by reflexivity.
    change ([] ++ [t]) with [t] in Hp. congruence.
Qed.

Lemma find_path_shortest_witness :
  exists p,
    JtagStateMachine.find_path (ByName "shift_ir") None fsm0 = (Ok p, fsm0) /\
    simple_path wired "test_logic_reset" "shift_ir" p /\
    (forall q, simple_path wired "test_logic_reset" "shift_ir" q ->
       (length p <= length q)%nat) /\
    first_shortest p
      (dfs_paths (length state_names) wired "test_logic_reset" "shift_ir" []) /\
    ("test_logic_reset" = "shift_ir" -> p = ["test_logic_reset"]).
Proof.
  apply (find_path_shortest fsm0 (ByName "shift_ir") None).
  - unfold wired. reflexivity.
  - compute_done.
  - compute_done.
Defined.

(** ** Replay and the transition cache *)

Lemma bs_int_msb_snoc (l : BitSequence) (b : bool) :
  bs_int_msb (l ++ [b]) = (2 * bs_int_msb l + Z.b2z b)%Z.
Proof. unfold bs_int_msb. rewrite fold_left_app. reflexivity. Qed.

Lemma bs_int_msb_rev_inj (l1 l2 : BitSequence) :
  length l1 = length l2 ->
  bs_int_msb (rev l1) = bs_int_msb (rev l2) -> l1 = l2.
Proof.
  revert l2. induction l1 as [|a l1 IH]; intros [|b l2] Hlen Hv;
    try discriminate; [reflexivity |].
  simpl in Hv. rewrite !bs_int_msb_snoc in Hv.
  injection Hlen as Hlen.
  assert (a = b /\ bs_int_msb (rev l1) = bs_int_msb (rev l2)) as [-> Hv'].
  { destruct a, b; simpl in Hv; split; (reflexivity || lia). }
  f_equal. apply IH; assumption.
Qed.

(** Length and integer value together determine the bits, so a cache key
    stands for one start state and one bit sequence. *)
Lemma bs_int_inj (o : bit_order) (l1 l2 : BitSequence) :
  bs_len l1 = bs_len l2 -> bs_int o l1 = bs_int o l2 -> l1 = l2.
Proof.
  unfold bs_len. intros Hlen Hv. destruct o; simpl in Hv.
  - rewrite <- (rev_involutive l1), <- (rev_involutive l2) in Hv.
    apply bs_int_msb_rev_inj in Hv; [| rewrite !length_rev; exact Hlen].
    rewrite <- (rev_involutive l1), <- (rev_involutive l2), Hv. reflexivity.
  - apply bs_int_msb_rev_inj; assumption.
Qed.

(** One replay step on the TAP graph. *)
Lemma getx_wired (s : string) (event : bool) :
  s ∈ state_names ->
  exists x, (try* o := JtagStateMachine.deref wired s in
             JtagState.getx o event)%py = Ok x /\ x ∈ state_names.
Proof.
  intros Hs. destruct (wired_lookup s Hs) as (ms & a & b & Ho & Ha & Hb & _).
  unfold JtagStateMachine.deref. rewrite Ho.
  destruct event; [exists b | exists a]; split; (reflexivity || assumption).
Qed.

Lemma replay_cons st s event bits :
  replay st s (event :: bits) =
  (try* x := (try* o := JtagStateMachine.deref st s in
              JtagState.getx o event) in replay st x bits)%py.
Proof. reflexivity. Qed.

(** Replay never fails on the TAP graph and stays among the 16 states. *)
Lemma replay_total (bits : BitSequence) :
  forall s, s ∈ state_names ->
    exists r, replay wired s bits = Ok r /\ r ∈ state_names.
Proof.
  induction bits as [|event bits IH]; intros s Hs.
  - exists s. split; [reflexivity | exact Hs].
  - rewrite replay_cons.
    destruct (getx_wired s event Hs) as (x & -> & Hx). apply IH, Hx.
Qed.

(** The replay loop of [handle_events] moves the current state along
    [replay] and touches nothing else. *)
Lemma for_each_step (bits : BitSequence) :
  forall st cur cache r,
    replay st cur bits = Ok r ->
    for_each bits JtagStateMachine.step (JtagStateMachine.mk st cur cache)
    = (Ok tt, JtagStateMachine.mk st r cache).
Proof.
  induction bits as [|event bits IH]; intros st cur cache r Hr.
  - injection Hr as ->. reflexivity.
  - rewrite replay_cons in Hr.
    cbn [for_each]. unfold bind at 1.
    unfold JtagStateMachine.step, bind, gets, lift_res, modify. cbn [JtagStateMachine._current JtagStateMachine.states].
    destruct (JtagStateMachine.deref st cur) as [o |]; [| discriminate].
    cbn [res_bind] in Hr.
    destruct (JtagState.getx o event) as [x |]; [| discriminate].
    cbn [res_bind] in Hr.
    unfold JtagStateMachine.set_current.
    cbn [JtagStateMachine._current JtagStateMachine.states
         JtagStateMachine._tr_cache].
    apply IH, Hr.
Qed.

Lemma wired_name (s : string) (o : JtagState.t) :
  wired !! s = Some o -> JtagState.name o = s.
Proof.
  intros Ho. assert (s ∈ state_names) as Hs by (apply wired_is_Some; eauto).
  destruct (wired_lookup s Hs) as (ms & a & b & Ho' & _).
  rewrite Ho in Ho'. injection Ho' as ->. reflexivity.
Qed.

(** What [handle_events] does to a well-formed machine, hit or miss. *)
Lemma handle_events_spec (o : bit_order) (m : JtagStateMachine.t)
    (events : BitSequence) :
  fsm_wf o m ->
  exists r cache',
    replay wired (JtagStateMachine._current m) events = Ok r /\
    JtagStateMachine.handle_events o events m
    = (Ok tt, JtagStateMachine.mk wired r cache') /\
    fsm_wf o (JtagStateMachine.mk wired r cache') /\
    cache' !! (JtagStateMachine._current m, bs_len events, bs_int o events)
    = Some r.
Proof.
  destruct m as [st cur cache]. intros (Hst & Hcur & Hcache).
  cbn [JtagStateMachine.states JtagStateMachine._current
       JtagStateMachine._tr_cache] in *. subst st.
  destruct (replay_total events cur Hcur) as (r & Hr & Hrn).
  destruct (proj1 (wired_is_Some cur) Hcur) as [oc Hoc].
  pose proof (wired_name cur oc Hoc) as Hname.
  unfold JtagStateMachine.handle_events, bind, gets, lift_res.
  cbn [JtagStateMachine.states JtagStateMachine._current
       JtagStateMachine._tr_cache].
  unfold JtagStateMachine.deref at 1. rewrite Hoc, Hname.
  destruct (cache !! (cur, bs_len events, bs_int o events)) as [c |] eqn:Hc.
  - destruct (Hcache _ _ _ _ Hc) as (bits & Hlen & Hv & Hrb).
    pose proof (bs_int_inj o events bits Hlen Hv) as ->.
    assert (c = r) as -> by congruence.
    exists r, cache. split; [exact Hr |]. split; [reflexivity |].
    split; [| exact Hc]. repeat split; assumption.
  - rewrite (for_each_step events wired cur cache r Hr).
    unfold modify, JtagStateMachine.set_tr_cache.
    cbn [JtagStateMachine.states JtagStateMachine._current
         JtagStateMachine._tr_cache].
    eexists r, _. split; [exact Hr |]. split; [reflexivity |].
    split; [| apply lookup_insert_eq].
    repeat split; try assumption.
    intros n len v r' Hl. cbn [JtagStateMachine._tr_cache] in Hl.
    destruct (decide ((cur, bs_len events, bs_int o events) = (n, len, v)))
      as [Heq | Hne].
    + injection Heq as <- <- <-. rewrite lookup_insert_eq in Hl.
      injection Hl as <-. exists events. auto.
    + rewrite lookup_insert_ne in Hl by exact Hne. eapply Hcache, Hl.
Qed.

Lemma fsm0_wf (o : bit_order) : fsm_wf o fsm0.
Proof.
  split; [unfold wired; reflexivity |]. split; [compute_done |].
  intros n len v r Hl. change (JtagStateMachine._tr_cache fsm0) with
    (∅ : gmap (string * nat * Z) string) in Hl.
  rewrite lookup_empty in Hl. discriminate.
Qed.

Lemma reset_spec (m : JtagStateMachine.t) :
  JtagStateMachine.states m = wired ->
  JtagStateMachine.reset m
  = (Ok tt, JtagStateMachine.mk wired "test_logic_reset"
              (JtagStateMachine._tr_cache m)).
Proof.
  intros Hst.
  unfold JtagStateMachine.reset, bind, JtagStateMachine.__getitem__,
    JtagStateMachine.deref, modify, JtagStateMachine.set_current.
  rewrite Hst.
  assert (is_Some (wired !! "test_logic_reset")) as [o ->]
    by (apply wired_is_Some; compute_done).
  reflexivity.
Qed.

(** Whatever calls were made on it, the machine is well formed. *)
Lemma fsm_reachable_wf (o : bit_order) (m : JtagStateMachine.t) :
  fsm_reachable o m -> fsm_wf o m.
Proof.
  induction 1 as [| m Hreach IH | m events Hreach IH].
  - apply fsm0_wf.
  - destruct IH as (Hst & Hcur & Hcache). rewrite (reset_spec m Hst).
    repeat split; [compute_done | exact Hcache].
  - destruct (handle_events_spec o m events IH) as (r & c & _ & -> & Hwf & _).
    exact Hwf.
Qed.

(** C4: on a well-formed machine, and so after any sequence of calls,
    [handle_events] returns normally and leaves as current state exactly
    the state that plain bit-by-bit replay through [getx] reaches, whether
    the key was in the transition cache or not; the graph is untouched, the
    key is in the cache afterwards, and an empty bit sequence leaves the
    current state as it was. *)
Theorem handle_events_is_replay (o : bit_order) (m : JtagStateMachine.t)
    (events : BitSequence) :
  fsm_wf o m ->
  exists m',
    JtagStateMachine.handle_events o events m = (Ok tt, m') /\
    replay (JtagStateMachine.states m) (JtagStateMachine._current m) events
    = Ok (JtagStateMachine._current m') /\
    JtagStateMachine.states m' = JtagStateMachine.states m /\
    fsm_wf o m' /\
    JtagStateMachine._tr_cache m'
      !! (JtagStateMachine._current m, bs_len events, bs_int o events)
    = Some (JtagStateMachine._current m') /\
    (events = [] ->
     JtagStateMachine._current m' = JtagStateMachine._current m).
Proof.
  intros Hwf.
  destruct (handle_events_spec o m events Hwf) as (r & c & Hr & Hh & Hwf' & Hk).
  destruct Hwf as (Hst & _).
  eexists. split; [exact Hh |]. rewrite Hst.
  cbn [JtagStateMachine.states JtagStateMachine._current
       JtagStateMachine._tr_cache].
  repeat split; try assumption; try apply Hwf'.
  intros ->. cbn in Hr. congruence.
Qed.

Lemma handle_events_is_replay_witness :
  exists m',
    JtagStateMachine.handle_events LsbFirst [false; true; true] fsm0
    = (Ok tt, m') /\
    replay (JtagStateMachine.states fsm0) (JtagStateMachine._current fsm0)
      [false; true; true] = Ok (JtagStateMachine._current m') /\
    JtagStateMachine.states m' = JtagStateMachine.states fsm0 /\
    fsm_wf LsbFirst m' /\
    JtagStateMachine._tr_cache m'
      !! (JtagStateMachine._current fsm0, bs_len [false; true; true],
          bs_int LsbFirst [false; true; true])
    = Some (JtagStateMachine._current m') /\
    ([false; true; true] = [] ->
     JtagStateMachine._current m' = JtagStateMachine._current fsm0).
Proof.
  apply (handle_events_is_replay LsbFirst fsm0 [false; true; true]).
  split; [unfold wired; reflexivity |]. split; [compute_done |].
  intros n len v r Hl. vm_compute in Hl. discriminate.
Defined.

(** A second call with the same bits from the same state is a cache hit
    and ends in the same state as the first, which was a miss. *)
Example handle_events_hit :
  let m1 := snd (JtagStateMachine.handle_events MsbFirst [false; true] fsm0) in
  let m2 := snd (JtagStateMachine.reset m1) in
  let m3 := snd (JtagStateMachine.handle_events MsbFirst [false; true] m2) in
  JtagStateMachine._tr_cache fsm0 !! ("test_logic_reset", 2%nat, 1%Z) = None /\
  JtagStateMachine._tr_cache m2 !! ("test_logic_reset", 2%nat, 1%Z)
  = Some "select_dr_scan" /\
  JtagStateMachine._current m1 = "select_dr_scan" /\
  JtagStateMachine._current m3 = "select_dr_scan".
Proof. vm_compute. repeat split. Qed.

(** ** Round trip *)

Lemma round_trip_check_ok (st : gmap string JtagState.t) (s t : string) :
  round_trip_check st s t = true ->
  exists p bits,
    JtagStateMachine.next_path 16 st s t [] = Ok p /\
    JtagStateMachine.get_events_in st p = Ok bits /\
    replay st s bits = Ok t.
Proof.
  unfold round_trip_check.
  destruct (JtagStateMachine.next_path 16 st s t []) as [p |] eqn:Hp;
    [| discriminate].
  destruct (JtagStateMachine.get_events_in st p) as [bits |] eqn:Hb;
    [| discriminate].
  destruct (replay st s bits) as [r |] eqn:Hr; [| discriminate].
  intros Hd. apply bool_decide_eq_true in Hd. subst r.
  exists p, bits. repeat split; assumption.
Qed.

Lemma round_trip_wired (s t : string) :
  s ∈ state_names -> t ∈ state_names ->
  exists p bits,
    JtagStateMachine.next_path JtagStateMachine.recursion_limit wired s t []
    = Ok p /\
    JtagStateMachine.get_events_in wired p = Ok bits /\
    replay wired s bits = Ok t.
Proof.
  intros Hs Ht.
  assert (forallb (fun s => forallb (round_trip_check wired s) state_names)
            state_names = true) as Hall by (vm_compute; reflexivity).
  destruct (round_trip_check_ok wired s t
              (elem_of_forallb _ _ _ (elem_of_forallb _ _ _ Hall Hs) Ht))
    as (p & bits & Hp & Hb & Hr).
  exists p, bits. split; [| split; assumption].
  apply (next_path_mono wired 16 s t [] p 984 Hp).
Qed.

Lemma get_events_eq (m : JtagStateMachine.t) (path : list string) :
  JtagStateMachine.get_events path m
  = (JtagStateMachine.get_events_in (JtagStateMachine.states m) path, m).
Proof. reflexivity. Qed.

(** C3: with the machine in state [source], the events synthesized from
    [find_path(target, source)] by [get_events] and replayed by
    [handle_events] leave the machine in state [target], for every pair of
    the 16 states and whatever the transition cache holds. *)
Theorem round_trip (o : bit_order) (m : JtagStateMachine.t)
    (target : state_arg) (source : option state_arg) :
  fsm_wf o m ->
  source_ref m source = JtagStateMachine._current m ->
  arg_ref target ∈ state_names ->
  exists path events m',
    JtagStateMachine.find_path target source m = (Ok path, m) /\
    JtagStateMachine.get_events path m = (Ok events, m) /\
    JtagStateMachine.handle_events o events m = (Ok tt, m') /\
    JtagStateMachine._current m' = arg_ref target.
Proof.
  intros Hwf Hsrc Ht. pose proof Hwf as (Hst & Hcur & _).
  destruct (round_trip_wired _ _ Hcur Ht) as (p & bits & Hp & Hb & Hr).
  destruct (handle_events_spec o m bits Hwf) as (r & c & Hr' & Hh & _).
  exists p, bits, (JtagStateMachine.mk wired r c).
  rewrite find_path_eq, Hsrc, Hp by (rewrite ?Hsrc; assumption).
  rewrite get_events_eq, Hst, Hb.
  repeat split; [exact Hh |].
  cbn [JtagStateMachine._current]. congruence.
Qed.

Lemma round_trip_witness :
  exists path events m',
    JtagStateMachine.find_path (ByName "pause_dr") (Some (ByName "test_logic_reset")) fsm0
    = (Ok path, fsm0) /\
    JtagStateMachine.get_events path fsm0 = (Ok events, fsm0) /\
    JtagStateMachine.handle_events MsbFirst events fsm0 = (Ok tt, m') /\
    JtagStateMachine._current m' = "pause_dr".
Proof.
  apply (round_trip MsbFirst fsm0 (ByName "pause_dr")
           (Some (ByName "test_logic_reset"))).
  - split; [unfold wired; reflexivity |]. split; [compute_done |].
    intros n len v r Hl. vm_compute in Hl. discriminate.
  - reflexivity.
  - compute_done.
Defined.

(** ** Mode tags *)

(** C8 fails on the code: three mode tuples of [__init__] hold a tag outside
    the eight tags of the specification (a leading blank in [" idle"], the
    misspelling ["udpate"]), so [is_of] and [state_of] answer [True] for
    those strings, and [test_logic_reset] is not of mode ["idle"]; the
    other thirteen states only carry tags of the specification. *)
Theorem modes_outside_tags :
  (exists o, wired !! "test_logic_reset" = Some o /\
     JtagState.is_of o " idle" = true /\ JtagState.is_of o "idle" = false) /\
  (exists o, wired !! "exit_2_dr" = Some o /\
     JtagState.is_of o "udpate" = true /\ JtagState.is_of o "update" = false) /\
  (exists o, wired !! "exit_1_ir" = Some o /\
     JtagState.is_of o "udpate" = true /\ JtagState.is_of o "update" = false) /\
  (" idle" ∉ mode_tags) /\ ("udpate" ∉ mode_tags) /\
  JtagStateMachine.state_of " idle" fsm0 = (Ok true, fsm0) /\
  Forall (fun S =>
    S ∈ ["test_logic_reset"; "exit_2_dr"; "exit_1_ir"] \/
    exists o, wired !! S = Some o /\
      Forall (fun tag => tag ∈ mode_tags) (JtagState.modes o))
    state_names.
Proof.
  split; [eexists; split; [vm_compute; reflexivity | split; reflexivity] |].
  split; [eexists; split; [vm_compute; reflexivity | split; reflexivity] |].
  split; [eexists; split; [vm_compute; reflexivity | split; reflexivity] |].
  split; [compute_done |]. split; [compute_done |].
  split; [vm_compute; reflexivity |].
  apply Forall_forall. intros S HS.
  each_state HS;
    first [ left; compute_done
          | right; eexists; split; [vm_compute; reflexivity | compute_done] ].
Qed.

(** ** The abstract controller *)

(** C7 as stated fails: [system_reset] of class [JtagController] returns
    normally. *)
Lemma system_reset_is_silent : ~ all_operations_raise unit.
Proof.
  intros H. destruct (H tt false [] 0%nat) as (_ & [msg Hmsg] & _).
  discriminate Hmsg.
Qed.

(** C7, amended: on a controller that inherits them, [tap_reset],
    [write_tms], [write] and [read] raise [NotImplementedError] at once,
    leaving the controller and the argument as they were, while
    [system_reset] and [quit] return normally and do nothing. *)
Theorem abstract_operations (C : Type) (c : C) (use_trst : bool)
    (bits : BitSequence) (length : nat) :
  JtagController.tap_reset (JtagController.abc C) use_trst c
  = (Raise (NotImplementedError "ABC"), c) /\
  JtagController.write_tms (JtagController.abc C) (c, bits)
  = (Raise (NotImplementedError "ABC"), (c, bits)) /\
  JtagController.write (JtagController.abc C) (c, bits)
  = (Raise (NotImplementedError "ABC"), (c, bits)) /\
  JtagController.read (JtagController.abc C) length c
  = (Raise (NotImplementedError "ABC"), c) /\
  JtagController.system_reset (JtagController.abc C) c = (Ok tt, c) /\
  JtagController.quit (JtagController.abc C) c = (Ok tt, c).
Proof. repeat split. Qed.

(** ** Queries leave the state machine alone *)

Lemma getitem_pure (name : string) (m : JtagStateMachine.t) :
  snd (JtagStateMachine.__getitem__ name m) = m.
Proof. reflexivity. Qed.

Lemma resolve_pure (a : state_arg) (m : JtagStateMachine.t) :
  snd (JtagStateMachine.resolve a m) = m.
Proof. destruct a; reflexivity. Qed.

(** C10: [find_path] and [get_events], like [state], [state_of] and
    [__getitem__], return the machine exactly as they found it, whatever
    their arguments and whether they return or raise: current state,
    transition cache and the exits of every state are unchanged. *)
Theorem queries_are_pure (m : JtagStateMachine.t) :
  (forall target source,
     snd (JtagStateMachine.find_path target source m) = m) /\
  (forall path, snd (JtagStateMachine.get_events path m) = m) /\
  (forall mode, snd (JtagStateMachine.state_of mode m) = m) /\
  (forall name, snd (JtagStateMachine.__getitem__ name m) = m) /\
  snd (JtagStateMachine.state m) = m.
Proof.
  split; [| split; [| split; [| split]]].
  - intros target source. unfold JtagStateMachine.find_path, bind.
    assert (forall A (r : res A * JtagStateMachine.t)
              (k : A -> M JtagStateMachine.t (list string)),
              snd r = m -> (forall a, snd (k a m) = m) ->
              snd (let (r0, s') := r in
                   match r0 with
                   | Ok a => k a s'
                   | Raise e => (Raise e, s')
                   end) = m) as Hbind.
    { intros A [[a | e] s'] k Hr Hk; simpl in Hr; subst s';
        [apply Hk | reflexivity]. }
    apply Hbind.
    + destruct source as [a |]; [apply resolve_pure | reflexivity].
    + intros s. apply Hbind; [apply resolve_pure |].
      intros t. reflexivity.
  - intros path. reflexivity.
  - intros mode. unfold JtagStateMachine.state_of, bind,
      JtagStateMachine.state, gets, lift_res, ret.
    destruct (JtagStateMachine.deref _ _); reflexivity.
  - intros name. reflexivity.
  - reflexivity.
Qed.

(** ** The engine *)

Section Engine.
Context {C : Type}.
Variable ctrl : JtagController.t C.
Variable order : bit_order.

Lemma events_for_wired (s t : string) :
  s ∈ state_names -> t ∈ state_names ->
  exists bits, events_for s t = Ok bits /\ replay wired s bits = Ok t.
Proof.
  intros Hs Ht. destruct (round_trip_wired s t Hs Ht) as (p & bits & Hp & Hb & Hr).
  exists bits. unfold events_for. rewrite Hp. split; assumption.
Qed.

(** Sending the bits of a live sequence: the controller is called on a
    fresh copy, then the state machine replays another fresh copy; objects
    that existed before are not written. *)
Lemma transmit_spec (e : JtagEngine.t C) (l : JtagEngine.loc)
    (bits : BitSequence) (r : res unit) (c' : C) (left : BitSequence) :
  fsm_wf order (JtagEngine._fsm e) ->
  JtagEngine.heap e !! l = Some bits ->
  JtagController.write_tms ctrl (JtagEngine._ctrl e, bits) = (r, (c', left)) ->
  exists m' h',
    transmit ctrl order l e
    = (r, JtagEngine.mk c' m' (JtagEngine._tr_cache e)
            (JtagEngine.heap e ++ h')) /\
    fsm_wf order m' /\
    match r with
    | Ok _ => replay wired (current e) bits = Ok (JtagStateMachine._current m')
    | Raise _ => m' = JtagEngine._fsm e
    end.
Proof.
  destruct e as [c m cache h]. intros Hwf Hl Hw.
  cbn [JtagEngine._fsm JtagEngine.heap JtagEngine._ctrl JtagEngine._tr_cache] in *.
  unfold transmit, JtagEngine.copy.
  unfold bind at 1. unfold bind at 1.
  unfold JtagEngine.load at 1. cbn [JtagEngine.heap]. rewrite Hl.
  unfold JtagEngine.alloc at 1, JtagEngine.set_heap.
  cbn [JtagEngine._fsm JtagEngine.heap JtagEngine._ctrl JtagEngine._tr_cache].
  unfold bind at 1.
  unfold JtagEngine.on_ctrl_with at 1, bind at 1, JtagEngine.load at 1.
  cbn [JtagEngine.heap].
  rewrite lookup_app_r, Nat.sub_diag by reflexivity. cbn [lookup list_lookup].
  cbn [JtagEngine._ctrl]. rewrite Hw.
  unfold JtagEngine.set_heap, JtagEngine.set_ctrl.
  cbn [JtagEngine._fsm JtagEngine.heap JtagEngine._ctrl JtagEngine._tr_cache].
  assert (<[length h := left]> (h ++ [bits]) = h ++ [left]) as Hins.
  { rewrite insert_app_r_alt, Nat.sub_diag by reflexivity. reflexivity. }
  destruct r as [[] | x]; rewrite Hins.
  - unfold bind at 1. unfold bind at 1.
    unfold JtagEngine.load at 1. cbn [JtagEngine.heap].
    rewrite lookup_app_l by (apply lookup_lt_Some in Hl; exact Hl).
    rewrite Hl.
    unfold JtagEngine.alloc at 1, JtagEngine.set_heap.
    cbn [JtagEngine._fsm JtagEngine.heap JtagEngine._ctrl JtagEngine._tr_cache].
    unfold bind at 1. unfold JtagEngine.load at 1. cbn [JtagEngine.heap].
    rewrite lookup_app_r, Nat.sub_diag by reflexivity. cbn [lookup list_lookup].
    unfold JtagEngine.on_fsm. cbn [JtagEngine._fsm].
    destruct (handle_events_spec order m bits Hwf) as (s' & tc' & Hr & -> & Hwf' & _).
    unfold JtagEngine.set_fsm.
    cbn [JtagEngine._fsm JtagEngine.heap JtagEngine._ctrl JtagEngine._tr_cache].
    eexists _, [left; bits]. rewrite <- app_assoc. split; [reflexivity |].
    split; [exact Hwf' | exact Hr].
  - exists m, [left]. split; [reflexivity |]. split; [exact Hwf | reflexivity].
Qed.

Lemma change_state_unfold (statename : string) :
  JtagEngine.change_state ctrl order statename =
  (let* cur := JtagEngine.on_fsm JtagStateMachine.state in
   let* cache := gets JtagEngine._tr_cache in
   let* events :=
     match cache !! (cur, statename) with
     | None =>
         let* path :=
           JtagEngine.on_fsm
             (JtagStateMachine.find_path (ByName statename) None) in
         let* bits := JtagEngine.on_fsm (JtagStateMachine.get_events path) in
         let* events := JtagEngine.alloc bits in
         modify (JtagEngine.set_tr_cache <[(cur, statename) := events]>) ;;
         ret events
     | Some events => ret events
     end in
   transmit ctrl order events)%py.
Proof. reflexivity. Qed.

Lemma engine_cache_ok_grow (c c' : C) (m m' : JtagStateMachine.t)
    (cache : gmap (string * string) nat) (h h' : list BitSequence) :
  engine_cache_ok (JtagEngine.mk c m cache h) ->
  engine_cache_ok (JtagEngine.mk c' m' cache (h ++ h')).
Proof.
  intros Hok s t l Hl. destruct (Hok s t l Hl) as (bits & Hb & He & Hr).
  exists bits. split; [| split; assumption].
  cbn [JtagEngine.heap] in *. apply lookup_app_l_Some, Hb.
Qed.

(** What [change_state] does from a well-formed engine: the bits handed to
    [write_tms] are those synthesized for the pair (current state, target),
    whether they come from the cache or not. *)
Lemma change_state_spec (e : JtagEngine.t C) (X : string) :
  engine_wf order e -> X ∈ state_names ->
  exists bits,
    events_for (current e) X = Ok bits /\
    replay wired (current e) bits = Ok X /\
    forall r c' left,
      JtagController.write_tms ctrl (JtagEngine._ctrl e, bits)
      = (r, (c', left)) ->
      exists e',
        JtagEngine.change_state ctrl order X e = (r, e') /\
        JtagEngine._ctrl e' = c' /\
        engine_wf order e' /\
        is_Some (JtagEngine._tr_cache e' !! (current e, X)) /\
        (forall k l, JtagEngine._tr_cache e' !! k = Some l ->
                     JtagEngine._tr_cache e !! k = Some l \/
                     (length (JtagEngine.heap e) <= l)%nat) /\
        (exists h', JtagEngine.heap e' = JtagEngine.heap e ++ h') /\
        match r with
        | Ok _ => current e' = X
        | Raise _ => JtagEngine._fsm e' = JtagEngine._fsm e
        end.
Proof.
  destruct e as [c m cache h]. intros (Hwf & Hcache) HX.
  unfold current. cbn [JtagEngine._fsm JtagEngine._ctrl] in *.
  pose proof Hwf as (Hst & Hcur & _).
  destruct (round_trip_wired _ _ Hcur HX) as (p & bits & Hp & Hb & Hr).
  exists bits. split; [unfold events_for; rewrite Hp; exact Hb |].
  split; [exact Hr |]. intros r c' left Hw.
  rewrite change_state_unfold.
  unfold bind at 1. unfold JtagEngine.on_fsm at 1, JtagStateMachine.state, gets.
  cbn [JtagEngine._fsm].
  assert (JtagEngine.set_fsm m (JtagEngine.mk c m cache h)
          = JtagEngine.mk c m cache h) as -> by reflexivity.
  unfold bind at 1. cbn [JtagEngine._tr_cache].
  unfold bind at 1.
  destruct (cache !! (JtagStateMachine._current m, X)) as [l |] eqn:Hc.
  - destruct (Hcache _ _ _ Hc) as (bits' & Hl & He & _).
    cbn [JtagEngine.heap] in Hl.
    assert (bits' = bits) as ->.
    { unfold events_for in He. rewrite Hp in He. cbn [res_bind] in He.
      congruence. }
    unfold ret.
    destruct (transmit_spec (JtagEngine.mk c m cache h) l bits r c' left
                Hwf Hl Hw) as (m' & h' & -> & Hwf' & Hres).
    eexists. split; [reflexivity |].
    cbn [JtagEngine._fsm JtagEngine._ctrl JtagEngine._tr_cache JtagEngine.heap].
    split; [reflexivity |]. split; [| split; [| split; [| split]]].
    + split; [exact Hwf' |]. eapply engine_cache_ok_grow, Hcache.
    + rewrite Hc. eauto.
    + auto.
    + eauto.
    + destruct r; [| exact Hres].
      unfold current in Hres. cbn [JtagEngine._fsm] in Hres. congruence.
  - unfold bind at 1. unfold JtagEngine.on_fsm at 1. cbn [JtagEngine._fsm].
    rewrite find_path_eq by (try exact Hst; exact Hcur || exact HX).
    cbn [source_ref arg_ref]. rewrite Hp.
    unfold JtagEngine.set_fsm at 1.
    cbn [JtagEngine._fsm JtagEngine._ctrl JtagEngine._tr_cache JtagEngine.heap].
    unfold bind at 1. unfold JtagEngine.on_fsm at 1. cbn [JtagEngine._fsm].
    rewrite get_events_eq, Hst, Hb.
    unfold JtagEngine.set_fsm at 1.
    cbn [JtagEngine._fsm JtagEngine._ctrl JtagEngine._tr_cache JtagEngine.heap].
    unfold bind at 1. unfold JtagEngine.alloc at 1, JtagEngine.set_heap at 1.
    cbn [JtagEngine._fsm JtagEngine._ctrl JtagEngine._tr_cache JtagEngine.heap].
    unfold bind at 1. unfold modify, JtagEngine.set_tr_cache, ret.
    cbn [JtagEngine._fsm JtagEngine._ctrl JtagEngine._tr_cache JtagEngine.heap].
    set (cache1 := <[(JtagStateMachine._current m, X) := length h]> cache).
    assert (engine_cache_ok (JtagEngine.mk c m cache1 (h ++ [bits]))) as Hcache1.
    { intros s t l Hl. unfold cache1 in Hl.
      cbn [JtagEngine._tr_cache JtagEngine.heap] in *.
      destruct (decide ((JtagStateMachine._current m, X) = (s, t))) as [Heq | Hne].
      - injection Heq as <- <-. rewrite lookup_insert_eq in Hl.
        injection Hl as <-. exists bits.
        split; [rewrite lookup_app_r, Nat.sub_diag by reflexivity; reflexivity |].
        split; [unfold events_for; rewrite Hp; exact Hb | exact Hr].
      - rewrite lookup_insert_ne in Hl by exact Hne.
        destruct (Hcache _ _ _ Hl) as (b & Hb' & He & Hr').
        exists b. split; [| split; assumption].
        cbn [JtagEngine.heap] in Hb'. apply lookup_app_l_Some, Hb'. }
    assert ((h ++ [bits]) !! length h = Some bits) as Hl
      by (rewrite lookup_app_r, Nat.sub_diag by reflexivity; reflexivity).
    destruct (transmit_spec (JtagEngine.mk c m cache1 (h ++ [bits])) (length h)
                bits r c' left Hwf Hl Hw) as (m' & h' & -> & Hwf' & Hres).
    eexists. split; [reflexivity |].
    cbn [JtagEngine._fsm JtagEngine._ctrl JtagEngine._tr_cache JtagEngine.heap].
    split; [reflexivity |]. split; [| split; [| split; [| split]]].
    + split; [exact Hwf' |]. eapply engine_cache_ok_grow, Hcache1.
    + unfold cache1. rewrite lookup_insert_eq. eauto.
    + intros k l Hk. unfold cache1 in Hk.
      destruct (decide ((JtagStateMachine._current m, X) = k)) as [<- | Hne].
      * rewrite lookup_insert_eq in Hk. injection Hk as <-. right. lia.
      * rewrite lookup_insert_ne in Hk by exact Hne. left. exact Hk.
    + rewrite <- app_assoc. eauto.
    + destruct r; [| exact Hres].
      unfold current in Hres. cbn [JtagEngine._fsm] in Hres. congruence.
Qed.

End Engine.

Lemma engine_new_eq {C} (c : C) :
  engine_new c = JtagEngine.mk c fsm0 ∅ [].
Proof.
  unfold engine_new, JtagEngine.__init__, fsm0.
  change (JtagStateMachine.__init__ JtagStateMachine.blank) with fsm_new.
  destruct fsm_new. reflexivity.
Qed.

Lemma engine_new_wf {C} (o : bit_order) (c : C) : engine_wf o (engine_new c).
Proof.
  rewrite engine_new_eq. split; [apply fsm0_wf |].
  intros s t l Hl. cbn [JtagEngine._tr_cache] in Hl.
  rewrite lookup_empty in Hl. discriminate.
Qed.

(** ** Reset *)

Lemma engine_reset_eq {C} (ctrl : JtagController.t C) (e : JtagEngine.t C)
    (r : res unit) (c' : C) :
  JtagStateMachine.states (JtagEngine._fsm e) = wired ->
  JtagController.reset ctrl (JtagEngine._ctrl e) = (r, c') ->
  JtagEngine.reset ctrl e
  = (r, JtagEngine.mk c'
          match r with
          | Ok _ =>
              JtagStateMachine.mk wired "test_logic_reset"
                (JtagStateMachine._tr_cache (JtagEngine._fsm e))
          | Raise _ => JtagEngine._fsm e
          end
          (JtagEngine._tr_cache e) (JtagEngine.heap e)).
Proof.
  destruct e as [c m cache h]. cbn [JtagEngine._fsm JtagEngine._ctrl]. intros Hst Hc.
  unfold JtagEngine.reset, bind, JtagEngine.on_ctrl, JtagEngine.on_fsm.
  cbn [JtagEngine._ctrl]. rewrite Hc. destruct r as [[] | x]; [| reflexivity].
  unfold JtagEngine.set_ctrl.
  cbn [JtagEngine._fsm JtagEngine._ctrl JtagEngine._tr_cache JtagEngine.heap].
  rewrite (reset_spec m Hst). reflexivity.
Qed.

(** On a controller that does offer a [reset] method, [JtagEngine.reset]
    first calls it and then, if that returned, the state machine's, after
    which the current state is test_logic_reset; if the controller raises,
    the exception propagates with the state machine untouched.
    [JtagStateMachine.reset] itself sets the current state to
    test_logic_reset from any state, without reading an exit or the
    transition cache. *)
Theorem engine_reset_order {C} (ctrl : JtagController.t C)
    (e : JtagEngine.t C) (r : res unit) (c' : C) :
  JtagStateMachine.states (JtagEngine._fsm e) = wired ->
  JtagController.reset ctrl (JtagEngine._ctrl e) = (r, c') ->
  JtagStateMachine.reset (JtagEngine._fsm e)
  = (Ok tt, JtagStateMachine.mk wired "test_logic_reset"
              (JtagStateMachine._tr_cache (JtagEngine._fsm e))) /\
  exists e',
    JtagEngine.reset ctrl e = (r, e') /\
    JtagEngine._ctrl e' = c' /\
    JtagEngine._tr_cache e' = JtagEngine._tr_cache e /\
    match r with
    | Ok _ =>
        current e' = "test_logic_reset" /\
        JtagEngine._fsm e' = snd (JtagStateMachine.reset (JtagEngine._fsm e))
    | Raise _ => JtagEngine._fsm e' = JtagEngine._fsm e
    end.
Proof.
  intros Hst Hc. split; [apply reset_spec, Hst |].
  eexists. split; [apply engine_reset_eq; eassumption |].
  cbn [JtagEngine._fsm JtagEngine._ctrl JtagEngine._tr_cache].
  split; [reflexivity |]. split; [reflexivity |].
  destruct r; [| reflexivity].
  split; [reflexivity |]. rewrite (reset_spec _ Hst). reflexivity.
Qed.

Lemma engine_reset_order_witness :
  let e := engine_new ([] : list call) in
  JtagStateMachine.reset (JtagEngine._fsm e)
  = (Ok tt, JtagStateMachine.mk wired "test_logic_reset"
              (JtagStateMachine._tr_cache (JtagEngine._fsm e))) /\
  exists e',
    JtagEngine.reset (recorder (fun _ => [])) e = (Ok tt, e') /\
    JtagEngine._ctrl e' = [CallReset] /\
    JtagEngine._tr_cache e' = JtagEngine._tr_cache e /\
    current e' = "test_logic_reset" /\
    JtagEngine._fsm e' = snd (JtagStateMachine.reset (JtagEngine._fsm e)).
Proof.
  apply (engine_reset_order (recorder (fun _ => []))
           (engine_new ([] : list call)) (Ok tt) [CallReset]).
  - rewrite engine_new_eq. unfold wired. reflexivity.
  - rewrite engine_new_eq. reflexivity.
Defined.

(** A controller without a [reset] attribute, such as one that only has
    the methods of class [JtagController]: [JtagEngine.reset] raises before
    the state machine is reset. *)
Example engine_reset_abc :
  let e := snd (JtagEngine.change_state (recorder (fun _ => [])) MsbFirst
                  "run_test_idle" (engine_new ([] : list call))) in
  current e = "run_test_idle" /\
  fst (JtagEngine.reset (JtagController.abc (list call)) e)
  = Raise (AttributeError "reset") /\
  current (snd (JtagEngine.reset (JtagController.abc (list call)) e))
  = "run_test_idle".
Proof. vm_compute. repeat split. Qed.

(** C6 fails on the code: [JtagEngine.reset] calls a method [reset] of the
    controller, which class [JtagController] does not declare (it declares
    [tap_reset]).  On a controller that implements exactly the declared
    operations the call raises [AttributeError] before
    [JtagStateMachine.reset] is reached, from every engine state: the
    controller is not reset and the state machine is left where it was,
    for instance in shift_dr, although the declared [tap_reset] of that
    controller works. *)
Theorem engine_reset_undeclared (consume : BitSequence -> BitSequence)
    (o : bit_order) :
  (forall e,
     JtagEngine.reset (declared_recorder consume) e
     = (Raise (AttributeError "reset"), e)) /\
  let ctrl := declared_recorder consume in
  let e := snd (JtagEngine.change_state ctrl o "shift_dr" (engine_new [])) in
  current e = "shift_dr" /\
  JtagEngine._ctrl e = [CallWriteTms [false; true; false; false]] /\
  current (snd (JtagEngine.reset ctrl e)) = "shift_dr" /\
  JtagEngine._ctrl (snd (JtagEngine.reset ctrl e)) = JtagEngine._ctrl e /\
  JtagController.tap_reset ctrl false (JtagEngine._ctrl e)
  = (Ok tt, JtagEngine._ctrl e ++ [CallTapReset false]).
Proof.
  assert (forall e,
            JtagEngine.reset (declared_recorder consume) e
            = (Raise (AttributeError "reset"), e)) as Hraise
    by (intros [c m cache h]; reflexivity).
  split; [exact Hraise |]. intros ctrl e. subst ctrl.
  rewrite (Hraise e). cbn [snd].
  destruct (change_state_spec (declared_recorder consume) o (engine_new [])
              "shift_dr"
              (engine_new_wf o []) ltac:(compute_done))
    as (bits & Hb & _ & Hcall).
  assert (events_for (current (engine_new ([] : list call))) "shift_dr"
          = Ok [false; true; false; false]) as He
    by (rewrite engine_new_eq; vm_compute; reflexivity).
  assert (bits = [false; true; false; false]) as -> by congruence.
  destruct (Hcall (Ok tt) [CallWriteTms [false; true; false; false]]
              (consume [false; true; false; false]))
    as (e' & Hcs & Hctrl & _ & _ & _ & _ & Hcur).
  { rewrite engine_new_eq. reflexivity. }
  assert (e = e') as -> by (unfold e; rewrite Hcs; reflexivity).
  rewrite Hctrl. repeat split; assumption || reflexivity.
Qed.

(** ** The synthesis cache *)

Section Recorder.
Variable consume : BitSequence -> BitSequence.
Variable order : bit_order.

Lemma change_state_recorded (e : JtagEngine.t (list call)) (X : string) :
  engine_wf order e -> X ∈ state_names ->
  exists bits e',
    events_for (current e) X = Ok bits /\
    JtagEngine.change_state (recorder consume) order X e = (Ok tt, e') /\
    JtagEngine._ctrl e' = JtagEngine._ctrl e ++ [CallWriteTms bits] /\
    current e' = X /\
    engine_wf order e' /\
    is_Some (JtagEngine._tr_cache e' !! (current e, X)) /\
    (forall k l, JtagEngine._tr_cache e' !! k = Some l ->
                 JtagEngine._tr_cache e !! k = Some l \/
                 (length (JtagEngine.heap e) <= l)%nat) /\
    (exists h', JtagEngine.heap e' = JtagEngine.heap e ++ h').
Proof.
  intros Hwf HX.
  destruct (change_state_spec (recorder consume) order e X Hwf HX)
    as (bits & He & _ & Hcall).
  destruct (Hcall (Ok tt) (JtagEngine._ctrl e ++ [CallWriteTms bits])
              (consume bits) eq_refl)
    as (e' & Hcs & Hctrl & Hwf' & Hin & Hgrow & Hheap & Hcur).
  exists bits, e'. repeat split; try assumption; apply Hwf'.
Qed.

(** C5: from any two well-formed engine states with the same current state,
    such as the state before a first call and any later state in which the
    machine is back at that source, [change_state(X)] hands the same
    mode-select bits to the controller, whether they are synthesized or
    taken from the cache and whatever the controller leaves in the sequence
    it was given; after a call the pair is in the cache. *)
Theorem change_state_idempotent (e1 e2 : JtagEngine.t (list call))
    (X : string) :
  engine_wf order e1 -> engine_wf order e2 ->
  current e1 = current e2 -> X ∈ state_names ->
  exists bits e1' e2',
    JtagEngine.change_state (recorder consume) order X e1 = (Ok tt, e1') /\
    JtagEngine.change_state (recorder consume) order X e2 = (Ok tt, e2') /\
    JtagEngine._ctrl e1' = JtagEngine._ctrl e1 ++ [CallWriteTms bits] /\
    JtagEngine._ctrl e2' = JtagEngine._ctrl e2 ++ [CallWriteTms bits] /\
    events_for (current e1) X = Ok bits /\
    current e1' = X /\ current e2' = X /\
    engine_wf order e1' /\ engine_wf order e2' /\
    is_Some (JtagEngine._tr_cache e1' !! (current e1, X)).
Proof.
  intros Hwf1 Hwf2 Hcur HX.
  destruct (change_state_recorded e1 X Hwf1 HX)
    as (b1 & e1' & Hb1 & Hc1 & Hl1 & Hx1 & Hw1 & Hin1 & _).
  destruct (change_state_recorded e2 X Hwf2 HX)
    as (b2 & e2' & Hb2 & Hc2 & Hl2 & Hx2 & Hw2 & _).
  assert (b2 = b1) as -> by (rewrite <- Hcur in Hb2; congruence).
  exists b1, e1', e2'. repeat split; try assumption; apply Hw1 || apply Hw2.
Qed.

End Recorder.

Lemma engine_reset_wf {C} (ctrl : JtagController.t C) (o : bit_order)
    (e : JtagEngine.t C) :
  engine_wf o e -> engine_wf o (snd (JtagEngine.reset ctrl e)).
Proof.
  intros (Hwf & Hcache). pose proof Hwf as (Hst & _ & Hc).
  destruct (JtagController.reset ctrl (JtagEngine._ctrl e)) as [r c'] eqn:Hr.
  rewrite (engine_reset_eq ctrl e r c' Hst Hr). cbn [snd].
  split.
  - cbn [JtagEngine._fsm]. destruct r; [| exact Hwf].
    repeat split; [compute_done | exact Hc].
  - destruct e as [c m cache h].
    cbn [JtagEngine._fsm JtagEngine._tr_cache JtagEngine.heap].
    rewrite <- (app_nil_r h). eapply engine_cache_ok_grow, Hcache.
Qed.

Lemma change_state_wf {C} (ctrl : JtagController.t C) (o : bit_order)
    (e : JtagEngine.t C) (X : string) :
  engine_wf o e -> X ∈ state_names ->
  engine_wf o (snd (JtagEngine.change_state ctrl o X e)).
Proof.
  intros Hwf HX.
  destruct (change_state_spec ctrl o e X Hwf HX) as (bits & _ & _ & Hcall).
  destruct (JtagController.write_tms ctrl (JtagEngine._ctrl e, bits))
    as [r [c' left]] eqn:Hw.
  destruct (Hcall r c' left eq_refl) as (e' & -> & _ & Hwf' & _).
  exact Hwf'.
Qed.

Lemma change_state_idempotent_witness :
  let ctrl := recorder (fun _ => []) in
  let e1 := engine_new ([] : list call) in
  let e2 :=
    snd (JtagEngine.reset ctrl
           (snd (JtagEngine.change_state ctrl MsbFirst "run_test_idle" e1))) in
  exists bits e1' e2',
    JtagEngine.change_state ctrl MsbFirst "run_test_idle" e1 = (Ok tt, e1') /\
    JtagEngine.change_state ctrl MsbFirst "run_test_idle" e2 = (Ok tt, e2') /\
    JtagEngine._ctrl e1' = JtagEngine._ctrl e1 ++ [CallWriteTms bits] /\
    JtagEngine._ctrl e2' = JtagEngine._ctrl e2 ++ [CallWriteTms bits] /\
    events_for (current e1) "run_test_idle" = Ok bits /\
    current e1' = "run_test_idle" /\ current e2' = "run_test_idle" /\
    engine_wf MsbFirst e1' /\ engine_wf MsbFirst e2' /\
    is_Some (JtagEngine._tr_cache e1' !! (current e1, "run_test_idle")).
Proof.
  intros ctrl e1 e2.
  apply (change_state_idempotent (fun _ => []) MsbFirst e1 e2 "run_test_idle").
  - apply engine_new_wf.
  - apply engine_reset_wf, change_state_wf;
      [apply engine_new_wf | compute_done].
  - vm_compute. reflexivity.
  - compute_done.
Defined.

(** The first call misses the engine cache, the second one, from the same
    source after a reset, hits it; the controller empties every sequence
    it is given and still receives the same bits, and the cached object is
    intact. *)
Example change_state_miss_then_hit :
  let ctrl := recorder (fun _ => []) in
  let e0 := engine_new ([] : list call) in
  let e1 := snd (JtagEngine.change_state ctrl LsbFirst "pause_ir" e0) in
  let e2 := snd (JtagEngine.reset ctrl e1) in
  let e3 := snd (JtagEngine.change_state ctrl LsbFirst "pause_ir" e2) in
  JtagEngine._tr_cache e0 !! ("test_logic_reset", "pause_ir") = None /\
  JtagEngine._tr_cache e2 !! ("test_logic_reset", "pause_ir") = Some 0%nat /\
  JtagEngine._ctrl e3 =
    [CallWriteTms [false; true; true; false; true; false];
     CallReset;
     CallWriteTms [false; true; true; false; true; false]] /\
  JtagEngine.heap e3 !! 0%nat = Some [false; true; true; false; true; false] /\
  JtagEngine.heap e3 !! 1%nat = Some [] /\
  current e3 = "pause_ir".
Proof. vm_compute. repeat split. Qed.

(** ** The write_ir scenario *)

(** C9 as stated fails: the transition capture_ir -> shift_ir is the single
    event 0, not 0,1, and the events that [change_state(shift_ir)] sends
    from test_logic_reset do not end in 0,1 either. *)
Lemma write_ir_bits_differ :
  ~ write_ir_bits_as_claimed /\
  ~ exists pre, events_for "test_logic_reset" "shift_ir"
                = Ok (pre ++ [false; true]).
Proof.
  split.
  - intros [H _]. vm_compute in H. discriminate H.
  - intros [pre H].
    assert (events_for "test_logic_reset" "shift_ir"
            = Ok [false; true; true; false; false]) as He
      by (vm_compute; reflexivity).
    rewrite He in H. injection H as H.
    apply (f_equal (@rev bool)) in H. rewrite rev_app_distr in H.
    discriminate H.
Qed.

Section WriteIr.
Variable consume : BitSequence -> BitSequence.
Variable order : bit_order.

Lemma write_recorded (e : JtagEngine.t (list call)) (l : nat)
    (bits : BitSequence) :
  engine_wf order e -> JtagEngine.heap e !! l = Some bits -> not_cached e l ->
  exists e',
    JtagEngine.on_ctrl_with (JtagController.write (recorder consume)) l e
    = (Ok tt, e') /\
    JtagEngine._ctrl e' = JtagEngine._ctrl e ++ [CallWrite bits] /\
    JtagEngine._fsm e' = JtagEngine._fsm e /\
    engine_wf order e'.
Proof.
  destruct e as [c m cache h]. intros (Hwf & Hcache) Hl Hfree.
  cbn [JtagEngine.heap] in Hl.
  unfold JtagEngine.on_ctrl_with, bind, JtagEngine.load.
  cbn [JtagEngine.heap JtagEngine._ctrl]. rewrite Hl.
  cbn [recorder JtagController.write].
  unfold JtagEngine.set_heap, JtagEngine.set_ctrl.
  cbn [JtagEngine._fsm JtagEngine._ctrl JtagEngine._tr_cache JtagEngine.heap].
  eexists. split; [reflexivity |].
  cbn [JtagEngine._fsm JtagEngine._ctrl JtagEngine._tr_cache JtagEngine.heap].
  split; [reflexivity |]. split; [reflexivity |].
  split; [exact Hwf |].
  intros s t l' Hl'. cbn [JtagEngine._tr_cache JtagEngine.heap] in *.
  destruct (Hcache s t l' Hl') as (b & Hb & He & Hr).
  exists b. split; [| split; assumption].
  cbn [JtagEngine.heap] in Hb.
  rewrite list_lookup_insert_ne; [exact Hb |].
  intros ->. exact (Hfree _ _ Hl' eq_refl).
Qed.

(** C9, amended: from test_logic_reset, [write_ir] first moves to shift_ir
    along a path whose last transition is capture_ir -> shift_ir, sending
    the events 0,1,1,0,0 (the last 0 being that transition), then hands the
    instruction to the controller, then moves along exactly
    shift_ir -> exit_1_ir -> update_ir, sending the events 1,1. *)
Theorem write_ir_scenario (e : JtagEngine.t (list call)) (instruction : nat)
    (ibits : BitSequence) :
  engine_wf order e ->
  current e = "test_logic_reset" ->
  JtagEngine.heap e !! instruction = Some ibits ->
  not_cached e instruction ->
  JtagStateMachine.find_path (ByName "shift_ir") None (JtagEngine._fsm e)
  = (Ok ["test_logic_reset"; "run_test_idle"; "select_dr_scan";
         "select_ir_scan"; "capture_ir"; "shift_ir"], JtagEngine._fsm e) /\
  JtagStateMachine.find_path (ByName "update_ir") (Some (ByName "shift_ir"))
    (JtagEngine._fsm e)
  = (Ok ["shift_ir"; "exit_1_ir"; "update_ir"], JtagEngine._fsm e) /\
  JtagStateMachine.get_events_in wired ["capture_ir"; "shift_ir"]
  = Ok [false] /\
  JtagStateMachine.get_events_in wired ["shift_ir"; "exit_1_ir"; "update_ir"]
  = Ok [true; true] /\
  exists e',
    JtagEngine.write_ir (recorder consume) order instruction e = (Ok tt, e') /\
    JtagEngine._ctrl e' =
      JtagEngine._ctrl e ++
      [CallWriteTms [false; true; true; false; false];
       CallWrite ibits;
       CallWriteTms [true; true]] /\
    current e' = "update_ir".
Proof.
  intros Hwf Hcur Hl Hfree. pose proof Hwf as ((Hst & Hc & _) & _).
  split.
  { rewrite find_path_eq; [| exact Hst | exact Hc | compute_done].
    cbn [source_ref arg_ref]. unfold current in Hcur. rewrite Hcur.
    assert (JtagStateMachine.next_path JtagStateMachine.recursion_limit wired
              "test_logic_reset" "shift_ir" []
            = Ok ["test_logic_reset"; "run_test_idle"; "select_dr_scan";
                  "select_ir_scan"; "capture_ir"; "shift_ir"]) as ->
      by (vm_compute; reflexivity).
    reflexivity. }
  split.
  { rewrite find_path_eq; [| exact Hst | compute_done | compute_done].
    cbn [source_ref arg_ref].
    assert (JtagStateMachine.next_path JtagStateMachine.recursion_limit wired
              "shift_ir" "update_ir" []
            = Ok ["shift_ir"; "exit_1_ir"; "update_ir"]) as ->
      by (vm_compute; reflexivity).
    reflexivity. }
  split; [vm_compute; reflexivity |]. split; [vm_compute; reflexivity |].
  destruct (change_state_recorded consume order e "shift_ir" Hwf
              ltac:(compute_done))
    as (b1 & e1 & Hb1 & Hcs1 & Hlog1 & Hcur1 & Hwf1 & _ & Hgrow & h' & Hh).
  rewrite Hcur in Hb1.
  assert (b1 = [false; true; true; false; false]) as ->.
  { assert (events_for "test_logic_reset" "shift_ir"
            = Ok [false; true; true; false; false]) as He
      by (vm_compute; reflexivity).
    congruence. }
  assert (JtagEngine.heap e1 !! instruction = Some ibits) as Hl1
    by (rewrite Hh; apply lookup_app_l_Some, Hl).
  assert (not_cached e1 instruction) as Hfree1.
  { intros k l' Hk. destruct (Hgrow k l' Hk) as [Hold | Hnew].
    - exact (Hfree k l' Hold).
    - apply lookup_lt_Some in Hl. lia. }
  destruct (write_recorded e1 instruction ibits Hwf1 Hl1 Hfree1)
    as (e2 & Hw & Hlog2 & Hfsm2 & Hwf2).
  destruct (change_state_recorded consume order e2 "update_ir" Hwf2
              ltac:(compute_done))
    as (b2 & e3 & Hb2 & Hcs2 & Hlog3 & Hcur3 & _).
  assert (current e2 = "shift_ir") as Hcur2
    by (unfold current; rewrite Hfsm2; exact Hcur1).
  rewrite Hcur2 in Hb2.
  assert (b2 = [true; true]) as ->.
  { assert (events_for "shift_ir" "update_ir" = Ok [true; true]) as He
      by (vm_compute; reflexivity).
    congruence. }
  exists e3. split.
  - unfold JtagEngine.write_ir, bind. rewrite Hcs1, Hw. exact Hcs2.
  - split; [| exact Hcur3].
    rewrite Hlog3, Hlog2, Hlog1, <- !app_assoc. reflexivity.
Qed.

End WriteIr.

Lemma write_ir_scenario_witness :
  let ctrl := recorder (fun _ => []) in
  let e := snd (JtagEngine.alloc [true; false; true]
                  (engine_new ([] : list call))) in
  JtagStateMachine.find_path (ByName "shift_ir") None (JtagEngine._fsm e)
  = (Ok ["test_logic_reset"; "run_test_idle"; "select_dr_scan";
         "select_ir_scan"; "capture_ir"; "shift_ir"], JtagEngine._fsm e) /\
  JtagStateMachine.find_path (ByName "update_ir") (Some (ByName "shift_ir"))
    (JtagEngine._fsm e)
  = (Ok ["shift_ir"; "exit_1_ir"; "update_ir"], JtagEngine._fsm e) /\
  JtagStateMachine.get_events_in wired ["capture_ir"; "shift_ir"]
  = Ok [false] /\
  JtagStateMachine.get_events_in wired ["shift_ir"; "exit_1_ir"; "update_ir"]
  = Ok [true; true] /\
  exists e',
    JtagEngine.write_ir ctrl MsbFirst 0%nat e = (Ok tt, e') /\
    JtagEngine._ctrl e' =
      JtagEngine._ctrl e ++
      [CallWriteTms [false; true; true; false; false];
       CallWrite [true; false; true];
       CallWriteTms [true; true]] /\
    current e' = "update_ir".
Proof.
  intros ctrl e.
  apply (write_ir_scenario (fun _ => []) MsbFirst e 0%nat [true; false; true]).
  - unfold e. rewrite engine_new_eq. split; [apply fsm0_wf |].
    intros s t l Hl. cbn in Hl. rewrite lookup_empty in Hl. discriminate.
  - unfold e. rewrite engine_new_eq. reflexivity.
  - unfold e. rewrite engine_new_eq. reflexivity.
  - unfold e. rewrite engine_new_eq. intros k l Hl. cbn in Hl.
    rewrite lookup_empty in Hl. discriminate.
Defined.

(** * Further properties *)

(** ** Event synthesis on arbitrary walks *)

Lemma get_events_in_unfold (st : gmap string JtagState.t) (path : list string) :
  JtagStateMachine.get_events_in st path =
  (try* events :=
     res_fold (pair_events st) (zip (removelast path) (tail path)) [] in
   if decide (Z.of_nat (length events) ≠ (Z.of_nat (length path) - 1)%Z)
   then Raise (JtagError "Invalid path")
   else Ok (bs_of_ints events))%py.
Proof. reflexivity. Qed.

(** The inner loop on a state of the TAP graph: one event when [d] is an
    exit of [s], none otherwise. *)
Lemma pair_events_wired (s d : string) (acc : list nat) :
  s ∈ state_names ->
  ((d ∈ exits_of wired s) /\
   exists epos, pair_events wired acc (s, d) = Ok (acc ++ [epos]) /\
     replay wired s (bs_of_ints [epos]) = Ok d) \/
  ((d ∉ exits_of wired s) /\ pair_events wired acc (s, d) = Ok acc).
Proof.
  intros Hs. destruct (wired_lookup s Hs) as (ms & a & b & Ho & _ & _ & Hab).
  unfold pair_events, JtagStateMachine.deref, exits_of, replay.
  rewrite Ho. cbn [res_bind JtagState.exits JtagStateMachine.enumerate
                   length seq zip zip_with fold_left bs_of_ints map res_fold].
  unfold JtagStateMachine.deref. rewrite Ho.
  cbn [res_bind JtagState.getx JtagState.exits].
  destruct (decide (a = d)) as [-> | Had], (decide (b = d)) as [-> | Hbd].
  - congruence.
  - left. split; [left |]. exists 0%nat. split; reflexivity.
  - left. split; [right; left |]. exists 1%nat. split; reflexivity.
  - right. split; [| reflexivity].
    rewrite !elem_of_cons, elem_of_nil. intros [-> | [-> | []]]; congruence.
Qed.

Lemma replay_app (st : gmap string JtagState.t) (b1 b2 : BitSequence) :
  forall s, replay st s (b1 ++ b2) = res_bind (replay st s b1)
                                       (fun x => replay st x b2).
Proof.
  induction b1 as [|e b1 IH]; intros s; [reflexivity |].
  rewrite <- app_comm_cons, !replay_cons.
  destruct (res_bind (JtagStateMachine.deref st s) _) as [x |];
    [apply IH | reflexivity].
Qed.

Lemma walk_inv st a b l :
  walk st (a :: b :: l) <-> b ∈ exits_of st a /\ walk st (b :: l).
Proof.
  split; [inversion 1; subst; auto | intros []; constructor; assumption].
Qed.

Lemma events_of_path (p : list string) :
  forall s acc,
    Forall (fun x => x ∈ state_names) (s :: p) ->
    exists evs,
      res_fold (pair_events wired)
        (zip (removelast (s :: p)) (tail (s :: p))) acc = Ok (acc ++ evs) /\
      ((walk wired (s :: p) /\ length evs = length p /\
        exists t, last (s :: p) = Some t /\
          replay wired s (bs_of_ints evs) = Ok t) \/
       (~ walk wired (s :: p) /\ (length evs < length p)%nat)).
Proof.
  induction p as [|d p IH]; intros s acc Hall.
  - exists []. split; [rewrite app_nil_r; reflexivity |].
    left. split; [constructor |]. split; [reflexivity |].
    exists s. split; reflexivity.
  - apply Forall_cons in Hall as [Hs Hall].
    change (zip (removelast (s :: d :: p)) (tail (s :: d :: p)))
      with ((s, d) :: zip (removelast (d :: p)) (tail (d :: p))).
    cbn [res_fold].
    destruct (pair_events_wired s d acc Hs)
      as [(Hedge & epos & -> & Hstep) | (Hno & ->)]; cbn [res_bind].
    + destruct (IH d (acc ++ [epos]) Hall) as (evs & -> & Hcase).
      exists (epos :: evs). split; [rewrite <- app_assoc; reflexivity |].
      destruct Hcase as [(Hw & Hlen & t & Hlast & Hr) | (Hnw & Hlen)].
      * left. split; [constructor; assumption |].
        split; [simpl; lia |]. exists t. split; [exact Hlast |].
        change (bs_of_ints (epos :: evs))
          with (bs_of_ints [epos] ++ bs_of_ints evs).
        rewrite replay_app, Hstep. exact Hr.
      * right. split; [| simpl; lia].
        intros Hw. apply walk_inv in Hw as [_ Hw]. exact (Hnw Hw).
    + destruct (IH d acc Hall) as (evs & -> & Hcase).
      exists evs. split; [reflexivity |]. right.
      split; [intros Hw; apply walk_inv in Hw as [He _]; exact (Hno He) |].
      destruct Hcase as [(_ & Hlen & _) | (_ & Hlen)]; simpl; lia.
Qed.

(** X1: for any non-empty sequence of states of the TAP graph,
    [get_events] returns normally exactly when consecutive states are
    joined by an edge (self-loops included); the events it returns are one
    per step and, replayed from the first state, lead to the last one.
    Otherwise, and for the empty sequence, it raises
    [JtagError("Invalid path")]. *)
Theorem get_events_walk (s : string) (p : list string) :
  Forall (fun x => x ∈ state_names) (s :: p) ->
  (walk wired (s :: p) ->
   exists events t,
     JtagStateMachine.get_events_in wired (s :: p) = Ok events /\
     length events = length p /\
     last (s :: p) = Some t /\ replay wired s events = Ok t) /\
  (~ walk wired (s :: p) ->
   JtagStateMachine.get_events_in wired (s :: p)
   = Raise (JtagError "Invalid path")) /\
  JtagStateMachine.get_events_in wired [] = Raise (JtagError "Invalid path").
Proof.
  intros Hall. rewrite !get_events_in_unfold.
  destruct (events_of_path p s [] Hall) as (evs & -> & Hcase).
  cbn [res_bind app].
  split; [| split].
  - intros Hw. destruct Hcase as [(_ & Hlen & t & Hlast & Hr) | (Hnw & _)];
      [| contradiction].
    exists (bs_of_ints evs), t.
    rewrite decide_False by (cbn [length]; lia).
    split; [reflexivity |]. split; [| split; assumption].
    unfold bs_of_ints. rewrite length_map. exact Hlen.
  - intros Hnw. destruct Hcase as [(Hw & _) | (_ & Hlen)]; [contradiction |].
    rewrite decide_True by (cbn [length]; lia). reflexivity.
  - reflexivity.
Qed.

Lemma get_events_walk_witness :
  (walk wired ["run_test_idle"; "run_test_idle"; "select_dr_scan"] ->
   exists events t,
     JtagStateMachine.get_events_in wired
       ["run_test_idle"; "run_test_idle"; "select_dr_scan"] = Ok events /\
     length events = 2%nat /\
     last ["run_test_idle"; "run_test_idle"; "select_dr_scan"] = Some t /\
     replay wired "run_test_idle" events = Ok t) /\
  (~ walk wired ["run_test_idle"; "run_test_idle"; "select_dr_scan"] ->
   JtagStateMachine.get_events_in wired
     ["run_test_idle"; "run_test_idle"; "select_dr_scan"]
   = Raise (JtagError "Invalid path")) /\
  JtagStateMachine.get_events_in wired [] = Raise (JtagError "Invalid path").
Proof.
  apply (get_events_walk "run_test_idle" ["run_test_idle"; "select_dr_scan"]).
  repeat constructor; compute_done.
Defined.

(** ** Replay on the TAP graph *)

Lemma five_ones (s : string) :
  s ∈ state_names ->
  replay wired s (replicate 5 true) = Ok "test_logic_reset".
Proof.
  intros Hs.
  assert (forallb (fun s =>
            match replay wired s (replicate 5 true) with
            | Ok r => bool_decide (r = "test_logic_reset")
            | Raise _ => false
            end) state_names = true) as Hall by (vm_compute; reflexivity).
  pose proof (elem_of_forallb _ _ _ Hall Hs) as H. cbv beta in H.
  destruct (replay wired s (replicate 5 true)) as [r |]; [| discriminate].
  apply bool_decide_eq_true in H. congruence.
Qed.

Lemma ones_stay_reset (k : nat) :
  replay wired "test_logic_reset" (replicate k true) = Ok "test_logic_reset".
Proof.
  induction k as [|k IH]; [reflexivity |].
  cbn [replicate]. rewrite replay_cons.
  assert ((try* o := JtagStateMachine.deref wired "test_logic_reset" in
           JtagState.getx o true)%py = Ok "test_logic_reset") as ->
    by (vm_compute; reflexivity).
  exact IH.
Qed.

(** X2: five or more 1 events bring the state machine to test_logic_reset
    from every state, whatever the transition cache holds. *)
Theorem ones_reset (o : bit_order) (m : JtagStateMachine.t) (k : nat) :
  fsm_wf o m ->
  exists m',
    JtagStateMachine.handle_events o (replicate (5 + k) true) m = (Ok tt, m') /\
    JtagStateMachine._current m' = "test_logic_reset".
Proof.
  intros Hwf. pose proof Hwf as (_ & Hcur & _).
  destruct (handle_events_spec o m (replicate (5 + k) true) Hwf)
    as (r & c & Hr & Hh & _).
  eexists. split; [exact Hh |]. cbn [JtagStateMachine._current].
  rewrite replicate_add, replay_app, (five_ones _ Hcur) in Hr.
  cbn [res_bind] in Hr. rewrite ones_stay_reset in Hr. congruence.
Qed.

Lemma ones_reset_witness :
  exists m',
    JtagStateMachine.handle_events MsbFirst (replicate (5 + 2) true)
      (snd (JtagStateMachine.handle_events MsbFirst
              [false; true; false; false] fsm0)) = (Ok tt, m') /\
    JtagStateMachine._current m' = "test_logic_reset".
Proof.
  apply (ones_reset MsbFirst _ 2).
  apply fsm_reachable_wf, reach_handle_events, reach_new.
Defined.

(** X3: replaying a concatenation is replaying its parts in turn: after
    [handle_events(a + b)] the current state is the one reached by
    [handle_events(a)] followed by [handle_events(b)]. *)
Theorem handle_events_app (o : bit_order) (m : JtagStateMachine.t)
    (a b : BitSequence) :
  fsm_wf o m ->
  JtagStateMachine._current
    (snd (JtagStateMachine.handle_events o (a ++ b) m)) =
  JtagStateMachine._current
    (snd (JtagStateMachine.handle_events o b
            (snd (JtagStateMachine.handle_events o a m)))).
Proof.
  intros Hwf.
  destruct (handle_events_spec o m (a ++ b) Hwf) as (r & c & Hr & -> & _).
  destruct (handle_events_spec o m a Hwf) as (ra & ca & Hra & -> & Hwfa & _).
  cbn [snd].
  destruct (handle_events_spec o _ b Hwfa) as (rb & cb & Hrb & -> & _).
  cbn [snd JtagStateMachine._current] in *.
  rewrite replay_app, Hra in Hr. cbn [res_bind] in Hr. congruence.
Qed.

Lemma handle_events_app_witness :
  JtagStateMachine._current
    (snd (JtagStateMachine.handle_events LsbFirst
            ([false; true] ++ [false; false]) fsm0)) =
  JtagStateMachine._current
    (snd (JtagStateMachine.handle_events LsbFirst [false; false]
            (snd (JtagStateMachine.handle_events LsbFirst [false; true]
                    fsm0)))).
Proof. apply (handle_events_app LsbFirst fsm0), fsm0_wf. Defined.

(** ** The transition cache only grows *)

Lemma step_keeps_cache (event : bool) (m : JtagStateMachine.t) :
  JtagStateMachine._tr_cache (snd (JtagStateMachine.step event m))
  = JtagStateMachine._tr_cache m.
Proof.
  unfold JtagStateMachine.step, bind, gets, lift_res, modify.
  destruct (JtagStateMachine.deref _ _) as [o |]; [| reflexivity].
  destruct (JtagState.getx o event); reflexivity.
Qed.

Lemma for_each_step_keeps_cache (events : BitSequence) :
  forall m,
    JtagStateMachine._tr_cache (snd (for_each events JtagStateMachine.step m))
    = JtagStateMachine._tr_cache m.
Proof.
  induction events as [|e events IH]; intros m; [reflexivity |].
  cbn [for_each]. unfold bind.
  pose proof (step_keeps_cache e m) as Hs.
  destruct (JtagStateMachine.step e m) as [[[] | x] m1]; cbn [snd] in Hs.
  - rewrite IH. exact Hs.
  - exact Hs.
Qed.

(** X4: no call ever removes or changes an entry of the transition cache:
    whatever the machine and the events, every entry present before
    [handle_events] or [reset] is present with the same value afterwards,
    also when the call raises. *)
Theorem tr_cache_grows (o : bit_order) (m : JtagStateMachine.t)
    (events : BitSequence) :
  JtagStateMachine._tr_cache m
    ⊆ JtagStateMachine._tr_cache
        (snd (JtagStateMachine.handle_events o events m)) /\
  JtagStateMachine._tr_cache (snd (JtagStateMachine.reset m))
  = JtagStateMachine._tr_cache m.
Proof.
  split.
  - unfold JtagStateMachine.handle_events, bind, gets, lift_res.
    destruct (JtagStateMachine.deref _ _) as [oc |]; [| reflexivity].
    destruct (JtagStateMachine._tr_cache m !! _) as [c |] eqn:Hc;
      [reflexivity |].
    pose proof (for_each_step_keeps_cache events m) as Hk.
    destruct (for_each events JtagStateMachine.step m) as [[[] | x] m1];
      cbn [snd] in Hk |- *.
    + unfold modify, JtagStateMachine.set_tr_cache.
      cbn [snd JtagStateMachine._tr_cache]. rewrite Hk.
      apply insert_subseteq, Hc.
    + rewrite Hk. reflexivity.
  - unfold JtagStateMachine.reset, bind, JtagStateMachine.__getitem__.
    destruct (res_bind _ _); reflexivity.
Qed.

(** ** Edge and error behaviour of [change_state] *)

Lemma cached_target_known {C} (o : bit_order) (e : JtagEngine.t C)
    (X : string) (l : nat) :
  engine_wf o e ->
  JtagEngine._tr_cache e !! (current e, X) = Some l -> X ∈ state_names.
Proof.
  intros ((_ & Hcur & _) & Hcache) Hl.
  destruct (Hcache _ _ _ Hl) as (bits & _ & _ & Hr).
  destruct (replay_total bits _ Hcur) as (r & Hr' & Hrn).
  unfold current in Hr. congruence.
Qed.

Lemma change_state_unknown_eq {C} (ctrl : JtagController.t C) (o : bit_order)
    (e : JtagEngine.t C) (X : string) :
  engine_wf o e -> X ∉ state_names ->
  JtagEngine.change_state ctrl o X e = (Raise (KeyError X), e).
Proof.
  intros Hwf HX.
  assert (JtagEngine._tr_cache e !! (current e, X) = None) as Hnone.
  { destruct (JtagEngine._tr_cache e !! (current e, X)) as [l |] eqn:Hl;
      [| reflexivity].
    destruct (HX (cached_target_known o e X l Hwf Hl)). }
  destruct e as [c m cache h]. destruct Hwf as ((Hst & Hcur & _) & _).
  unfold current in Hnone.
  cbn [JtagEngine._fsm JtagEngine._tr_cache] in *.
  rewrite change_state_unfold.
  unfold bind at 1. unfold JtagEngine.on_fsm at 1, JtagStateMachine.state, gets.
  cbn [JtagEngine._fsm].
  assert (JtagEngine.set_fsm m (JtagEngine.mk c m cache h)
          = JtagEngine.mk c m cache h) as -> by reflexivity.
  unfold bind at 1. cbn [JtagEngine._tr_cache].
  unfold bind at 1. rewrite Hnone.
  unfold bind at 1. unfold JtagEngine.on_fsm at 1. cbn [JtagEngine._fsm].
  assert (JtagStateMachine.find_path (ByName X) None m
          = (Raise (KeyError X), m)) as ->.
  { unfold JtagStateMachine.find_path, bind, JtagStateMachine.state, gets,
      JtagStateMachine.resolve, JtagStateMachine.__getitem__,
      JtagStateMachine.deref.
    rewrite Hst.
    destruct (wired !! X) as [ox |] eqn:Hx; [| reflexivity].
    destruct HX. apply wired_is_Some. eauto. }
  reflexivity.
Qed.

(** X5: asked for a state name that is not one of the 16, [change_state]
    raises [KeyError] for that name and changes nothing: the controller is
    not called, the state machine keeps its state, and nothing is cached or
    allocated. *)
Theorem change_state_unknown {C} (ctrl : JtagController.t C) (o : bit_order)
    (e : JtagEngine.t C) (X : string) :
  engine_wf o e -> X ∉ state_names ->
  JtagEngine.change_state ctrl o X e = (Raise (KeyError X), e).
Proof. apply change_state_unknown_eq. Qed.

Lemma change_state_unknown_witness :
  JtagEngine.change_state (recorder (fun _ => [])) MsbFirst "shift_xr"
    (engine_new ([] : list call))
  = (Raise (KeyError "shift_xr"), engine_new ([] : list call)).
Proof.
  apply (change_state_unknown (recorder (fun _ => [])) MsbFirst).
  - apply engine_new_wf.
  - compute_done.
Defined.

Lemma events_for_self (s : string) : events_for s s = Ok [].
Proof.
  unfold events_for.
  change JtagStateMachine.recursion_limit with (S 999).
  rewrite next_path_unfold, decide_True by reflexivity. reflexivity.
Qed.

(** X6: asked for the state the machine is already in, [change_state]
    still calls [write_tms], with an empty sequence, and the current state
    stays; so a second [go_idle] leaves the machine in run_test_idle. *)
Theorem change_state_same (consume : BitSequence -> BitSequence)
    (o : bit_order) (e : JtagEngine.t (list call)) :
  engine_wf o e ->
  exists e',
    JtagEngine.change_state (recorder consume) o (current e) e = (Ok tt, e') /\
    JtagEngine._ctrl e' = JtagEngine._ctrl e ++ [CallWriteTms []] /\
    current e' = current e.
Proof.
  intros Hwf. pose proof Hwf as ((_ & Hcur & _) & _).
  destruct (change_state_recorded consume o e (current e) Hwf Hcur)
    as (bits & e' & Hb & Hcs & Hlog & Hc' & _).
  rewrite events_for_self in Hb. injection Hb as <-.
  exists e'. repeat split; assumption.
Qed.

Lemma change_state_same_witness :
  let ctrl := recorder (fun _ => []) in
  let e := snd (JtagEngine.go_idle ctrl MsbFirst (engine_new [])) in
  exists e',
    JtagEngine.change_state ctrl MsbFirst (current e) e = (Ok tt, e') /\
    JtagEngine._ctrl e' = JtagEngine._ctrl e ++ [CallWriteTms []] /\
    current e' = current e.
Proof.
  intros ctrl e. apply (change_state_same (fun _ => []) MsbFirst e).
  apply change_state_wf; [apply engine_new_wf | compute_done].
Defined.

(** X7: when the controller's [write_tms] raises, [change_state] raises
    the same exception; the state machine has not moved, but the sequence
    synthesized for the pair is already in the engine cache, and the
    engine stays consistent. *)
Theorem change_state_write_fails {C} (ctrl : JtagController.t C)
    (o : bit_order) (e : JtagEngine.t C) (X : string) (bits : BitSequence)
    (x : exn) (c' : C) (left : BitSequence) :
  engine_wf o e -> X ∈ state_names ->
  events_for (current e) X = Ok bits ->
  JtagController.write_tms ctrl (JtagEngine._ctrl e, bits)
  = (Raise x, (c', left)) ->
  exists e',
    JtagEngine.change_state ctrl o X e = (Raise x, e') /\
    JtagEngine._fsm e' = JtagEngine._fsm e /\
    JtagEngine._ctrl e' = c' /\
    is_Some (JtagEngine._tr_cache e' !! (current e, X)) /\
    engine_wf o e'.
Proof.
  intros Hwf HX Hb Hw.
  destruct (change_state_spec ctrl o e X Hwf HX) as (bits' & Hb' & _ & Hcall).
  assert (bits' = bits) as -> by congruence.
  destruct (Hcall _ _ _ Hw) as (e' & Hcs & Hc & Hwf' & Hin & _ & _ & Hfsm).
  exists e'. repeat split; try assumption; apply Hwf'.
Qed.

Lemma change_state_write_fails_witness :
  exists e',
    JtagEngine.change_state (JtagController.abc unit) MsbFirst "run_test_idle"
      (engine_new tt) = (Raise (NotImplementedError "ABC"), e') /\
    JtagEngine._fsm e' = JtagEngine._fsm (engine_new tt) /\
    JtagEngine._ctrl e' = tt /\
    is_Some (JtagEngine._tr_cache e'
               !! (current (engine_new tt), "run_test_idle")) /\
    engine_wf MsbFirst e'.
Proof.
  apply (change_state_write_fails (JtagController.abc unit) MsbFirst
           (engine_new tt) "run_test_idle" [false]
           (NotImplementedError "ABC") tt [false]).
  - apply engine_new_wf.
  - compute_done.
  - vm_compute. reflexivity.
  - reflexivity.
Defined.

(** ** Register access *)

Section Registers.
Variable consume : BitSequence -> BitSequence.
Variable order : bit_order.

(** [change_state(shift)], a controller write of the caller's object,
    [change_state(update)]: the body of [write_ir] and [write_dr]. *)
Lemma write_reg_recorded (e : JtagEngine.t (list call)) (l : nat)
    (bits : BitSequence) (shift update : string) :
  engine_wf order e -> shift ∈ state_names -> update ∈ state_names ->
  JtagEngine.heap e !! l = Some bits -> not_cached e l ->
  exists b1 b2 e',
    events_for (current e) shift = Ok b1 /\
    events_for shift update = Ok b2 /\
    (JtagEngine.change_state (recorder consume) order shift ;;
     JtagEngine.on_ctrl_with (JtagController.write (recorder consume)) l ;;
     JtagEngine.change_state (recorder consume) order update)%py e
    = (Ok tt, e') /\
    JtagEngine._ctrl e' =
      JtagEngine._ctrl e ++ [CallWriteTms b1; CallWrite bits; CallWriteTms b2] /\
    current e' = update /\
    engine_wf order e'.
Proof.
  intros Hwf Hshift Hupdate Hl Hfree.
  destruct (change_state_recorded consume order e shift Hwf Hshift)
    as (b1 & e1 & Hb1 & Hcs1 & Hlog1 & Hcur1 & Hwf1 & _ & Hgrow & h' & Hh).
  assert (JtagEngine.heap e1 !! l = Some bits) as Hl1
    by (rewrite Hh; apply lookup_app_l_Some, Hl).
  assert (not_cached e1 l) as Hfree1.
  { intros k l' Hk. destruct (Hgrow k l' Hk) as [Hold | Hnew].
    - exact (Hfree k l' Hold).
    - apply lookup_lt_Some in Hl. lia. }
  destruct (write_recorded consume order e1 l bits Hwf1 Hl1 Hfree1)
    as (e2 & Hw & Hlog2 & Hfsm2 & Hwf2).
  destruct (change_state_recorded consume order e2 update Hwf2 Hupdate)
    as (b2 & e3 & Hb2 & Hcs2 & Hlog3 & Hcur3 & Hwf3 & _).
  assert (current e2 = shift) as Hcur2
    by (unfold current; rewrite Hfsm2; exact Hcur1).
  rewrite Hcur2 in Hb2.
  exists b1, b2, e3. split; [exact Hb1 |]. split; [exact Hb2 |]. split.
  - unfold bind. rewrite Hcs1, Hw. exact Hcs2.
  - split; [| split; assumption].
    rewrite Hlog3, Hlog2, Hlog1, <- !app_assoc. reflexivity.
Qed.

(** X8: from every state of the machine, [write_ir] and [write_dr] return
    normally, end in update_ir resp. update_dr, and make exactly three
    controller calls: the mode-select bits leading to shift_ir (shift_dr),
    the caller's data, and the mode-select bits 1,1. *)
Theorem write_register (e : JtagEngine.t (list call)) (l : nat)
    (bits : BitSequence) :
  engine_wf order e ->
  JtagEngine.heap e !! l = Some bits -> not_cached e l ->
  (exists b1 e',
     events_for (current e) "shift_ir" = Ok b1 /\
     JtagEngine.write_ir (recorder consume) order l e = (Ok tt, e') /\
     JtagEngine._ctrl e' =
       JtagEngine._ctrl e ++
       [CallWriteTms b1; CallWrite bits; CallWriteTms [true; true]] /\
     current e' = "update_ir") /\
  (exists b1 e',
     events_for (current e) "shift_dr" = Ok b1 /\
     JtagEngine.write_dr (recorder consume) order l e = (Ok tt, e') /\
     JtagEngine._ctrl e' =
       JtagEngine._ctrl e ++
       [CallWriteTms b1; CallWrite bits; CallWriteTms [true; true]] /\
     current e' = "update_dr").
Proof.
  intros Hwf Hl Hfree. split.
  - destruct (write_reg_recorded e l bits "shift_ir" "update_ir" Hwf
                ltac:(compute_done) ltac:(compute_done) Hl Hfree)
      as (b1 & b2 & e' & Hb1 & Hb2 & Hrun & Hlog & Hcur & _).
    assert (b2 = [true; true]) as ->.
    { assert (events_for "shift_ir" "update_ir" = Ok [true; true]) as He
        by (vm_compute; reflexivity).
      congruence. }
    exists b1, e'. repeat split; assumption.
  - destruct (write_reg_recorded e l bits "shift_dr" "update_dr" Hwf
                ltac:(compute_done) ltac:(compute_done) Hl Hfree)
      as (b1 & b2 & e' & Hb1 & Hb2 & Hrun & Hlog & Hcur & _).
    assert (b2 = [true; true]) as ->.
    { assert (events_for "shift_dr" "update_dr" = Ok [true; true]) as He
        by (vm_compute; reflexivity).
      congruence. }
    exists b1, e'. repeat split; assumption.
Qed.

Lemma alloc_wf {C} (e : JtagEngine.t C) (bits : BitSequence) :
  engine_wf order e -> engine_wf order (snd (JtagEngine.alloc bits e)).
Proof.
  destruct e as [c m cache h]. intros (Hwf & Hcache).
  split; [exact Hwf |]. eapply engine_cache_ok_grow, Hcache.
Qed.

Lemma read_dr_recorded (e : JtagEngine.t (list call)) (n : nat) :
  engine_wf order e ->
  exists b1 e' data,
    events_for (current e) "shift_dr" = Ok b1 /\
    JtagEngine.read_dr (recorder consume) order n e = (Ok data, e') /\
    JtagEngine._ctrl e' =
      JtagEngine._ctrl e ++
      [CallWriteTms b1; CallRead n; CallWriteTms [true; true]] /\
    current e' = "update_dr" /\
    JtagEngine.heap e' !! data = Some (replicate n false) /\
    not_cached e' data /\
    engine_wf order e'.
Proof.
  intros Hwf.
  destruct (change_state_recorded consume order e "shift_dr" Hwf
              ltac:(compute_done))
    as (b1 & e1 & Hb1 & Hcs1 & Hlog1 & Hcur1 & Hwf1 & _).
  destruct e1 as [c1 m1 cache1 h1].
  unfold current in Hcur1.
  cbn [JtagEngine._ctrl JtagEngine._fsm] in Hlog1, Hcur1.
  set (e3 := JtagEngine.mk (c1 ++ [CallRead n]) m1 cache1
               (h1 ++ [replicate n false])).
  assert (engine_wf order e3) as Hwf3.
  { destruct Hwf1 as (Hf & Hc). split; [exact Hf |].
    eapply engine_cache_ok_grow, Hc. }
  destruct (change_state_recorded consume order e3 "update_dr" Hwf3
              ltac:(compute_done))
    as (b2 & e4 & Hb2 & Hcs2 & Hlog4 & Hcur4 & Hwf4 & _ & Hgrow & h' & Hh).
  change (current e3) with (JtagStateMachine._current m1) in Hb2.
  rewrite Hcur1 in Hb2.
  assert (b2 = [true; true]) as ->.
  { assert (events_for "shift_dr" "update_dr" = Ok [true; true]) as He
      by (vm_compute; reflexivity).
    congruence. }
  exists b1, e4, (length h1). split; [exact Hb1 |]. split.
  - unfold JtagEngine.read_dr, bind. rewrite Hcs1.
    unfold JtagEngine.on_ctrl.
    cbn [JtagEngine._ctrl recorder JtagController.read].
    unfold JtagEngine.set_ctrl, JtagEngine.alloc, JtagEngine.set_heap.
    cbn [JtagEngine._fsm JtagEngine._ctrl JtagEngine._tr_cache JtagEngine.heap].
    match goal with
    | |- context [JtagEngine.change_state _ _ _ ?x] => change x with e3
    end.
    rewrite Hcs2. reflexivity.
  - split; [| split; [exact Hcur4 | split; [| split; [| exact Hwf4]]]].
    + rewrite Hlog4. unfold e3. cbn [JtagEngine._ctrl].
      rewrite Hlog1, <- !app_assoc. reflexivity.
    + rewrite Hh. unfold e3. cbn [JtagEngine.heap].
      apply lookup_app_l_Some.
      rewrite lookup_app_r, Nat.sub_diag by reflexivity. reflexivity.
    + intros k l' Hk ->. destruct (Hgrow k _ Hk) as [Hold | Hnew].
      * unfold e3 in Hold. cbn [JtagEngine._tr_cache] in Hold.
        destruct Hwf1 as (_ & Hc). destruct (Hc _ _ _ Hold) as (b & Hb & _).
        cbn [JtagEngine.heap] in Hb. apply lookup_lt_Some in Hb. lia.
      * unfold e3 in Hnew. cbn [JtagEngine.heap] in Hnew.
        rewrite length_app in Hnew. simpl in Hnew. lia.
Qed.

(** X9: from every state of the machine, [read_dr(length)] returns
    normally with a new sequence holding what the controller's [read]
    returned, which the engine cache does not refer to; it ends in
    update_dr after exactly three controller calls: the mode-select bits
    leading to shift_dr, the read, and the mode-select bits 1,1. *)
Theorem read_register (e : JtagEngine.t (list call)) (n : nat) :
  engine_wf order e ->
  exists b1 e' data,
    events_for (current e) "shift_dr" = Ok b1 /\
    JtagEngine.read_dr (recorder consume) order n e = (Ok data, e') /\
    JtagEngine._ctrl e' =
      JtagEngine._ctrl e ++
      [CallWriteTms b1; CallRead n; CallWriteTms [true; true]] /\
    current e' = "update_dr" /\
    JtagEngine.heap e' !! data = Some (replicate n false) /\
    not_cached e' data.
Proof.
  intros Hwf.
  destruct (read_dr_recorded e n Hwf)
    as (b1 & e' & data & H1 & H2 & H3 & H4 & H5 & H6 & _).
  exists b1, e', data. repeat split; assumption.
Qed.

(** X10: from every state of the machine, [go_idle] and [run] end in
    run_test_idle, [capture_ir] in capture_ir and [capture_dr] in
    capture_dr, each after one [write_tms] call. *)
Theorem shortcuts (e : JtagEngine.t (list call)) :
  engine_wf order e ->
  (exists b e', JtagEngine.go_idle (recorder consume) order e = (Ok tt, e') /\
     JtagEngine.run (recorder consume) order e = (Ok tt, e') /\
     JtagEngine._ctrl e' = JtagEngine._ctrl e ++ [CallWriteTms b] /\
     current e' = "run_test_idle") /\
  (exists b e', JtagEngine.capture_ir (recorder consume) order e = (Ok tt, e') /\
     JtagEngine._ctrl e' = JtagEngine._ctrl e ++ [CallWriteTms b] /\
     current e' = "capture_ir") /\
  (exists b e', JtagEngine.capture_dr (recorder consume) order e = (Ok tt, e') /\
     JtagEngine._ctrl e' = JtagEngine._ctrl e ++ [CallWriteTms b] /\
     current e' = "capture_dr").
Proof.
  intros Hwf. split; [| split].
  - destruct (change_state_recorded consume order e "run_test_idle" Hwf
                ltac:(compute_done)) as (b & e' & _ & Hcs & Hlog & Hcur & _).
    exists b, e'. repeat split; assumption.
  - destruct (change_state_recorded consume order e "capture_ir" Hwf
                ltac:(compute_done)) as (b & e' & _ & Hcs & Hlog & Hcur & _).
    exists b, e'. repeat split; assumption.
  - destruct (change_state_recorded consume order e "capture_dr" Hwf
                ltac:(compute_done)) as (b & e' & _ & Hcs & Hlog & Hcur & _).
    exists b, e'. repeat split; assumption.
Qed.

End Registers.

Lemma write_register_witness :
  let ctrl := recorder (fun _ => []) in
  let e := snd (JtagEngine.alloc [true; true; false]
                  (snd (JtagEngine.go_idle ctrl LsbFirst (engine_new [])))) in
  (exists b1 e',
     events_for (current e) "shift_ir" = Ok b1 /\
     JtagEngine.write_ir ctrl LsbFirst 3%nat e = (Ok tt, e') /\
     JtagEngine._ctrl e' =
       JtagEngine._ctrl e ++
       [CallWriteTms b1; CallWrite [true; true; false];
        CallWriteTms [true; true]] /\
     current e' = "update_ir") /\
  (exists b1 e',
     events_for (current e) "shift_dr" = Ok b1 /\
     JtagEngine.write_dr ctrl LsbFirst 3%nat e = (Ok tt, e') /\
     JtagEngine._ctrl e' =
       JtagEngine._ctrl e ++
       [CallWriteTms b1; CallWrite [true; true; false];
        CallWriteTms [true; true]] /\
     current e' = "update_dr").
Proof.
  intros ctrl e.
  apply (write_register (fun _ => []) LsbFirst e 3%nat [true; true; false]).
  - apply alloc_wf, change_state_wf; [apply engine_new_wf | compute_done].
  - vm_compute. reflexivity.
  - intros k l' Hk ->. vm_compute in Hk.
    destruct k as [k1 k2].
    assert (JtagEngine._tr_cache e
            = {[ ("test_logic_reset", "run_test_idle") := 0%nat ]}) as Hc
      by (vm_compute; reflexivity).
    assert (JtagEngine._tr_cache e !! (k1, k2) = Some 3%nat) as Hk' by exact Hk.
    rewrite Hc in Hk'. apply lookup_singleton_Some in Hk' as [_ Hk'].
    discriminate Hk'.
Defined.

Lemma read_register_witness :
  let ctrl := recorder (fun _ => []) in
  let e := engine_new ([] : list call) in
  exists b1 e' data,
    events_for (current e) "shift_dr" = Ok b1 /\
    JtagEngine.read_dr ctrl MsbFirst 4 e = (Ok data, e') /\
    JtagEngine._ctrl e' =
      JtagEngine._ctrl e ++
      [CallWriteTms b1; CallRead 4; CallWriteTms [true; true]] /\
    current e' = "update_dr" /\
    JtagEngine.heap e' !! data = Some (replicate 4 false) /\
    not_cached e' data.
Proof.
  intros ctrl e.
  apply (read_register (fun _ => []) MsbFirst e 4), engine_new_wf.
Defined.

Lemma shortcuts_witness :
  let ctrl := recorder (fun _ => []) in
  let e := engine_new ([] : list call) in
  (exists b e', JtagEngine.go_idle ctrl MsbFirst e = (Ok tt, e') /\
     JtagEngine.run ctrl MsbFirst e = (Ok tt, e') /\
     JtagEngine._ctrl e' = JtagEngine._ctrl e ++ [CallWriteTms b] /\
     current e' = "run_test_idle") /\
  (exists b e', JtagEngine.capture_ir ctrl MsbFirst e = (Ok tt, e') /\
     JtagEngine._ctrl e' = JtagEngine._ctrl e ++ [CallWriteTms b] /\
     current e' = "capture_ir") /\
  (exists b e', JtagEngine.capture_dr ctrl MsbFirst e = (Ok tt, e') /\
     JtagEngine._ctrl e' = JtagEngine._ctrl e ++ [CallWriteTms b] /\
     current e' = "capture_dr").
Proof.
  intros ctrl e. apply (shortcuts (fun _ => []) MsbFirst e), engine_new_wf.
Defined.

(** ** The engine invariant along every run *)

Lemma bind_keeps {S A B} (I : S -> Prop) (m : M S A) (k : A -> M S B) :
  (forall s, I s -> I (snd (m s))) ->
  (forall a s, I s -> I (snd (k a s))) ->
  forall s, I s -> I (snd (bind m k s)).
Proof.
  intros Hm Hk s Hs. unfold bind. specialize (Hm s Hs).
  destruct (m s) as [[a | x] s']; cbn [snd] in *; [apply Hk, Hm | exact Hm].
Qed.

Section AnyController.
Context {C : Type}.
Variable ctrl : JtagController.t C.
Variable order : bit_order.

Lemma change_state_keeps_wf (X : string) (e : JtagEngine.t C) :
  engine_wf order e ->
  engine_wf order (snd (JtagEngine.change_state ctrl order X e)).
Proof.
  intros Hwf. destruct (decide (X ∈ state_names)) as [HX | HX].
  - apply change_state_wf; assumption.
  - rewrite change_state_unknown_eq by assumption. exact Hwf.
Qed.

Lemma change_state_keeps_object (X : string) (l : nat) (e : JtagEngine.t C) :
  holds_object order l e ->
  holds_object order l (snd (JtagEngine.change_state ctrl order X e)).
Proof.
  intros (Hwf & Hfree & Hlive).
  destruct (decide (X ∈ state_names)) as [HX | HX].
  - destruct (change_state_spec ctrl order e X Hwf HX) as (bits & _ & _ & Hcall).
    destruct (JtagController.write_tms ctrl (JtagEngine._ctrl e, bits))
      as [r [c' left]] eqn:Hw.
    destruct (Hcall r c' left eq_refl)
      as (e' & -> & _ & Hwf' & _ & Hgrow & (h' & Hh) & _).
    cbn [snd]. split; [exact Hwf' |]. split.
    + intros k l' Hk. destruct (Hgrow k l' Hk) as [Hold | Hnew].
      * exact (Hfree k l' Hold).
      * apply lookup_lt_is_Some in Hlive. lia.
    + rewrite Hh. destruct Hlive as [b Hb].
      exists b. apply lookup_app_l_Some, Hb.
  - rewrite change_state_unknown_eq by assumption.
    exact (conj Hwf (conj Hfree Hlive)).
Qed.

(** A controller method called on an object the cache does not refer to,
    whatever it does to the object and whether it returns or raises. *)
Lemma on_ctrl_with_keeps_object (m : M (C * BitSequence) unit) (l : nat)
    (e : JtagEngine.t C) :
  holds_object order l e ->
  holds_object order l (snd (JtagEngine.on_ctrl_with m l e)).
Proof.
  destruct e as [c fsm cache h]. intros ((Hwf & Hcache) & Hfree & [b Hb]).
  cbn [JtagEngine.heap] in Hb.
  unfold JtagEngine.on_ctrl_with, bind, JtagEngine.load.
  cbn [JtagEngine.heap JtagEngine._ctrl]. rewrite Hb.
  unfold JtagEngine.set_heap, JtagEngine.set_ctrl.
  cbn [JtagEngine._fsm JtagEngine._ctrl JtagEngine._tr_cache JtagEngine.heap].
  destruct (m (c, b)) as [r [c' b']]. cbn [snd].
  split; [split; [exact Hwf |] | split].
  - intros s t l' Hl'. cbn [JtagEngine._tr_cache JtagEngine.heap] in *.
    destruct (Hcache s t l' Hl') as (b0 & Hb0 & He & Hr).
    exists b0. split; [| split; assumption].
    cbn [JtagEngine.heap] in Hb0.
    rewrite list_lookup_insert_ne; [exact Hb0 |].
    intros ->. exact (Hfree _ _ Hl' eq_refl).
  - exact Hfree.
  - cbn [JtagEngine.heap]. apply lookup_lt_is_Some.
    rewrite length_insert. apply lookup_lt_Some in Hb. exact Hb.
Qed.

Lemma on_ctrl_keeps_wf {A} (m : M C A) (e : JtagEngine.t C) :
  engine_wf order e -> engine_wf order (snd (JtagEngine.on_ctrl m e)).
Proof.
  destruct e as [c fsm cache h]. intros (Hwf & Hcache).
  unfold JtagEngine.on_ctrl. cbn [JtagEngine._ctrl].
  destruct (m c) as [r c']. split; [exact Hwf |].
  unfold JtagEngine.set_ctrl. cbn [snd].
  rewrite <- (app_nil_r h). eapply engine_cache_ok_grow, Hcache.
Qed.

Lemma write_reg_keeps_wf (shift update : string) (l : nat)
    (e : JtagEngine.t C) :
  holds_object order l e ->
  engine_wf order
    (snd ((JtagEngine.change_state ctrl order shift ;;
           JtagEngine.on_ctrl_with (JtagController.write ctrl) l ;;
           JtagEngine.change_state ctrl order update)%py e)).
Proof.
  intros H.
  enough (holds_object order l
            (snd ((JtagEngine.change_state ctrl order shift ;;
                   JtagEngine.on_ctrl_with (JtagController.write ctrl) l ;;
                   JtagEngine.change_state ctrl order update)%py e)))
    as (Hwf & _) by exact Hwf.
  revert e H. apply bind_keeps; [apply change_state_keeps_object |].
  intros _. apply bind_keeps; [apply on_ctrl_with_keeps_object |].
  intros _. apply change_state_keeps_object.
Qed.

Lemma read_dr_keeps_wf (n : nat) (e : JtagEngine.t C) :
  engine_wf order e ->
  engine_wf order (snd (JtagEngine.read_dr ctrl order n e)).
Proof.
  revert e. unfold JtagEngine.read_dr.
  apply bind_keeps; [apply change_state_keeps_wf |].
  intros _. apply bind_keeps; [apply on_ctrl_keeps_wf |].
  intros bits. apply bind_keeps; [intros e; apply alloc_wf |].
  intros data. apply bind_keeps; [apply change_state_keeps_wf |].
  intros _ e He. exact He.
Qed.

Lemma engine_reachable_wf_aux (c0 : C) (e : JtagEngine.t C) :
  engine_reachable ctrl order c0 e -> engine_wf order e.
Proof.
  induction 1 as [| e _ IH | e X _ IH | e bits _ IH | e l _ IH Hfree Hlive
                  | e l _ IH Hfree Hlive | e n _ IH].
  - apply engine_new_wf.
  - apply engine_reset_wf, IH.
  - apply change_state_keeps_wf, IH.
  - apply alloc_wf, IH.
  - apply (write_reg_keeps_wf "shift_ir" "update_ir").
    exact (conj IH (conj Hfree Hlive)).
  - apply (write_reg_keeps_wf "shift_dr" "update_dr").
    exact (conj IH (conj Hfree Hlive)).
  - apply read_dr_keeps_wf, IH.
Qed.

(** X11: with any controller, also one whose calls raise or that consumes
    every sequence it is given, the engine stays consistent through every
    sequence of calls of its public methods: the state table is the TAP
    graph, the current state is one of the 16, both caches only hold
    correct entries, and every sequence in the engine cache is alive and
    still holds the bits synthesized for its pair of states. *)
Theorem engine_reachable_wf (c0 : C) (e : JtagEngine.t C) :
  engine_reachable ctrl order c0 e ->
  fsm_wf order (JtagEngine._fsm e) /\
  forall s t l, JtagEngine._tr_cache e !! (s, t) = Some l ->
    exists bits, JtagEngine.heap e !! l = Some bits /\
      events_for s t = Ok bits /\ replay wired s bits = Ok t.
Proof. intros H. exact (engine_reachable_wf_aux c0 e H). Qed.

End AnyController.

Lemma engine_reachable_wf_witness :
  let ctrl := JtagController.abc unit in
  let e := snd (JtagEngine.read_dr ctrl MsbFirst 8
                  (snd (JtagEngine.reset ctrl (engine_new tt)))) in
  fsm_wf MsbFirst (JtagEngine._fsm e) /\
  forall s t l, JtagEngine._tr_cache e !! (s, t) = Some l ->
    exists bits, JtagEngine.heap e !! l = Some bits /\
      events_for s t = Ok bits /\ replay wired s bits = Ok t.
Proof.
  intros ctrl e.
  apply (engine_reachable_wf ctrl MsbFirst tt e).
  apply reach_read_dr, reach_engine_reset, reach_engine_new.
Defined.

(** ** The state machine follows the bits sent *)

Lemma tms_since_reset_snoc (log : list call) (c : call) :
  tms_since_reset (log ++ [c]) = tms_step (tms_since_reset log) c.
Proof. unfold tms_since_reset. rewrite fold_left_app. reflexivity. Qed.

Lemma events_for_replay (s t : string) (bits : BitSequence) :
  s ∈ state_names -> t ∈ state_names ->
  events_for s t = Ok bits -> replay wired s bits = Ok t.
Proof.
  intros Hs Ht Hb. destruct (events_for_wired s t Hs Ht) as (b & Hb' & Hr).
  congruence.
Qed.

Section Sync.
Variable consume : BitSequence -> BitSequence.
Variable order : bit_order.

Lemma in_sync_change_state (e : JtagEngine.t (list call)) (X : string) :
  engine_wf order e -> in_sync e ->
  in_sync (snd (JtagEngine.change_state (recorder consume) order X e)).
Proof.
  intros Hwf Hsync. pose proof Hwf as ((_ & Hcur & _) & _).
  destruct (decide (X ∈ state_names)) as [HX | HX].
  - destruct (change_state_recorded consume order e X Hwf HX)
      as (bits & e' & Hb & -> & Hlog & Hcur' & _).
    cbn [snd]. unfold in_sync.
    rewrite Hlog, tms_since_reset_snoc. cbn [tms_step].
    rewrite replay_app, Hsync. cbn [res_bind]. rewrite Hcur'.
    apply events_for_replay; assumption.
  - rewrite change_state_unknown_eq by assumption. exact Hsync.
Qed.

Lemma in_sync_write_reg (e : JtagEngine.t (list call)) (l : nat)
    (shift update : string) :
  shift ∈ state_names -> update ∈ state_names ->
  holds_object order l e -> in_sync e ->
  in_sync
    (snd ((JtagEngine.change_state (recorder consume) order shift ;;
           JtagEngine.on_ctrl_with (JtagController.write (recorder consume)) l ;;
           JtagEngine.change_state (recorder consume) order update)%py e)).
Proof.
  intros Hshift Hupdate (Hwf & Hfree & [bits Hl]) Hsync.
  pose proof Hwf as ((_ & Hcur & _) & _).
  destruct (write_reg_recorded consume order e l bits shift update
              Hwf Hshift Hupdate Hl Hfree)
    as (b1 & b2 & e' & Hb1 & Hb2 & -> & Hlog & Hcur' & _).
  cbn [snd]. unfold in_sync. rewrite Hlog.
  change [CallWriteTms b1; CallWrite bits; CallWriteTms b2]
    with ([CallWriteTms b1] ++ [CallWrite bits] ++ [CallWriteTms b2]).
  rewrite !app_assoc, !tms_since_reset_snoc. cbn [tms_step].
  rewrite !replay_app, Hsync. cbn [res_bind].
  rewrite (events_for_replay (current e) shift b1 Hcur Hshift Hb1).
  cbn [res_bind].
  rewrite Hcur'. apply events_for_replay; assumption.
Qed.

Lemma tap_in_sync_aux (e : JtagEngine.t (list call)) :
  engine_reachable (recorder consume) order [] e -> in_sync e.
Proof.
  induction 1 as [| e Hreach IH | e X Hreach IH | e bits Hreach IH
                  | e l Hreach IH Hfree Hlive | e l Hreach IH Hfree Hlive
                  | e n Hreach IH];
    try pose proof (engine_reachable_wf_aux _ _ _ _ Hreach) as Hwf.
  - rewrite engine_new_eq. vm_compute. reflexivity.
  - pose proof Hwf as ((Hst & _) & _).
    rewrite (engine_reset_eq (recorder consume) e (Ok tt)
               (JtagEngine._ctrl e ++ [CallReset]) Hst eq_refl).
    cbn [snd]. unfold in_sync. cbn [JtagEngine._ctrl].
    rewrite tms_since_reset_snoc. reflexivity.
  - apply in_sync_change_state; assumption.
  - destruct e. exact IH.
  - apply (in_sync_write_reg e l "shift_ir" "update_ir");
      [compute_done | compute_done | | exact IH].
    exact (conj Hwf (conj Hfree Hlive)).
  - apply (in_sync_write_reg e l "shift_dr" "update_dr");
      [compute_done | compute_done | | exact IH].
    exact (conj Hwf (conj Hfree Hlive)).
  - pose proof Hwf as ((_ & Hcur & _) & _).
    destruct (read_dr_recorded consume order e n Hwf)
      as (b1 & e' & data & Hb1 & -> & Hlog & Hcur' & _).
    cbn [snd]. unfold in_sync. rewrite Hlog.
    change [CallWriteTms b1; CallRead n; CallWriteTms [true; true]]
      with ([CallWriteTms b1] ++ [CallRead n] ++ [CallWriteTms [true; true]]).
    rewrite !app_assoc, !tms_since_reset_snoc. cbn [tms_step].
    rewrite !replay_app, IH. cbn [res_bind].
    rewrite (events_for_replay (current e) "shift_dr" b1 Hcur
               ltac:(compute_done) Hb1).
    cbn [res_bind]. rewrite Hcur'. vm_compute. reflexivity.
Qed.

(** X12: the state machine and the device advance identically: after any
    sequence of calls of the engine's public methods, replaying from
    test_logic_reset all the mode-select bits the controller received
    since its last [reset] gives exactly the state machine's current
    state. *)
Theorem tap_in_sync (e : JtagEngine.t (list call)) :
  engine_reachable (recorder consume) order [] e ->
  replay wired "test_logic_reset" (tms_since_reset (JtagEngine._ctrl e))
  = Ok (current e).
Proof. apply tap_in_sync_aux. Qed.

End Sync.

Lemma tap_in_sync_witness :
  let ctrl := recorder (fun _ => []) in
  let e := snd (JtagEngine.capture_dr ctrl LsbFirst
                  (snd (JtagEngine.read_dr ctrl LsbFirst 3
                          (snd (JtagEngine.go_idle ctrl LsbFirst
                                  (engine_new [])))))) in
  replay wired "test_logic_reset" (tms_since_reset (JtagEngine._ctrl e))
  = Ok (current e).
Proof.
  intros ctrl e. apply (tap_in_sync (fun _ => []) LsbFirst e).
  apply reach_change_state, reach_read_dr, reach_change_state,
    reach_engine_new.
Defined.

(** ** The state machine on its own *)

(** X14: a state machine used on its own stays consistent through every
    sequence of [reset] and [handle_events] calls: its states and their
    exits are those [__init__] wired, its current state is one of the 16,
    and no call ever raises. *)
Theorem fsm_invariant (o : bit_order) (m : JtagStateMachine.t)
    (events : BitSequence) :
  fsm_reachable o m ->
  JtagStateMachine.states m = wired /\
  JtagStateMachine._current m ∈ state_names /\
  fst (JtagStateMachine.reset m) = Ok tt /\
  fst (JtagStateMachine.handle_events o events m) = Ok tt.
Proof.
  intros Hreach. pose proof (fsm_reachable_wf o m Hreach) as Hwf.
  pose proof Hwf as (Hst & Hcur & _).
  split; [exact Hst |]. split; [exact Hcur |]. split.
  - rewrite (reset_spec m Hst). reflexivity.
  - destruct (handle_events_spec o m events Hwf) as (r & c & _ & -> & _).
    reflexivity.
Qed.

Lemma fsm_invariant_witness :
  let m := snd (JtagStateMachine.handle_events MsbFirst [true; false; true]
                  (snd (JtagStateMachine.reset fsm0))) in
  JtagStateMachine.states m = wired /\
  JtagStateMachine._current m ∈ state_names /\
  fst (JtagStateMachine.reset m) = Ok tt /\
  fst (JtagStateMachine.handle_events MsbFirst [false] m) = Ok tt.
Proof.
  intros m. apply (fsm_invariant MsbFirst m [false]).
  apply reach_handle_events, reach_reset, reach_new.
Defined.

(** ** Path search: unknown names, any wiring, length of the result *)

(** X15: [find_path] looks a source given by name up first, then the
    target: an unknown source name raises [KeyError] for the source,
    whatever the target; with a valid source an unknown target name raises
    [KeyError] for the target.  The machine is unchanged. *)
Theorem find_path_unknown (m : JtagStateMachine.t) (n : string) :
  JtagStateMachine.states m = wired -> n ∉ state_names ->
  (forall target,
     JtagStateMachine.find_path target (Some (ByName n)) m
     = (Raise (KeyError n), m)) /\
  (forall source, source_ref m source ∈ state_names ->
     JtagStateMachine.find_path (ByName n) source m
     = (Raise (KeyError n), m)).
Proof.
  intros Hst Hn.
  assert (wired !! n = None) as Hnone.
  { destruct (wired !! n) eqn:Hl; [| reflexivity].
    destruct Hn. apply wired_is_Some. eauto. }
  assert (JtagStateMachine.resolve (ByName n) m = (Raise (KeyError n), m))
    as Hres.
  { unfold JtagStateMachine.resolve, JtagStateMachine.__getitem__,
      JtagStateMachine.deref. rewrite Hst, Hnone. reflexivity. }
  split.
  - intros target. unfold JtagStateMachine.find_path, bind.
    rewrite Hres. reflexivity.
  - intros source Hs. unfold JtagStateMachine.find_path, bind.
    assert (match source with
            | Some a => JtagStateMachine.resolve a
            | None => JtagStateMachine.state
            end m = (Ok (source_ref m source), m)) as ->.
    { destruct source as [a |]; [apply resolve_ok; assumption | reflexivity]. }
    rewrite Hres. reflexivity.
Qed.

Lemma find_path_unknown_witness :
  (forall target,
     JtagStateMachine.find_path target (Some (ByName "idle")) fsm0
     = (Raise (KeyError "idle"), fsm0)) /\
  (forall source, source_ref fsm0 source ∈ state_names ->
     JtagStateMachine.find_path (ByName "idle") source fsm0
     = (Raise (KeyError "idle"), fsm0)).
Proof.
  apply (find_path_unknown fsm0 "idle").
  - unfold wired. reflexivity.
  - compute_done.
Defined.







(** On the unwired pair the search finds nothing and returns the empty
    list; on the TAP graph the same theorem applies. *)
Example find_path_unwired :
  JtagStateMachine.find_path (ByState "b") (Some (ByState "a")) unwired_pair
  = (Ok [], unwired_pair) /\
  closed_wiring wired /\ size wired = 16%nat.
Proof. split; [vm_compute; reflexivity | split; compute_done]. Qed.

Lemma events_for_short (s t : string) :
  s ∈ state_names -> t ∈ state_names ->
  exists bits, events_for s t = Ok bits /\ (length bits <= 8)%nat.
Proof.
  intros Hs Ht.
  assert (forallb (fun s => forallb (fun t =>
            match events_for s t with
            | Ok bits => (length bits <=? 8)%nat
            | Raise _ => false
            end) state_names) state_names = true) as Hall
    by (vm_compute; reflexivity).
  pose proof (elem_of_forallb _ _ _ (elem_of_forallb _ _ _ Hall Hs) Ht) as H.
  cbv beta in H. destruct (events_for s t) as [bits |]; [| discriminate].
  exists bits. split; [reflexivity |]. apply Nat.leb_le, H.
Qed.

(** X17: [change_state] never sends more than 8 mode-select bits, from
    any state to any state, and 8 are needed from pause_dr to
    exit_2_ir. *)
Theorem change_state_short (consume : BitSequence -> BitSequence)
    (o : bit_order) (e : JtagEngine.t (list call)) (X : string) :
  engine_wf o e -> X ∈ state_names ->
  (exists bits e',
     JtagEngine.change_state (recorder consume) o X e = (Ok tt, e') /\
     JtagEngine._ctrl e' = JtagEngine._ctrl e ++ [CallWriteTms bits] /\
     (length bits <= 8)%nat) /\
  exists bits, events_for "pause_dr" "exit_2_ir" = Ok bits /\
               length bits = 8%nat.
Proof.
  intros Hwf HX. split.
  - pose proof Hwf as ((_ & Hcur & _) & _).
    destruct (change_state_recorded consume o e X Hwf HX)
      as (bits & e' & Hb & Hcs & Hlog & _).
    destruct (events_for_short _ _ Hcur HX) as (bits' & Hb' & Hlen).
    fold (current e) in Hb'. assert (bits' = bits) as -> by congruence.
    exists bits, e'. repeat split; assumption.
  - eexists. split; [vm_compute; reflexivity | reflexivity].
Qed.

Lemma change_state_short_witness :
  let e := engine_new ([] : list call) in
  (exists bits e',
     JtagEngine.change_state (recorder (fun _ => [])) MsbFirst "exit_2_ir" e
     = (Ok tt, e') /\
     JtagEngine._ctrl e' = JtagEngine._ctrl e ++ [CallWriteTms bits] /\
     (length bits <= 8)%nat) /\
  exists bits, events_for "pause_dr" "exit_2_ir" = Ok bits /\
               length bits = 8%nat.
Proof.
  intros e.
  apply (change_state_short (fun _ => []) MsbFirst e "exit_2_ir").
  - apply engine_new_wf.
  - compute_done.
Defined.
